(** * BlueskyPostCollector: the ingest pipeline, embedded and verified

    A shallow embedding of [app/post_ingestor.py] (class [BlueskyIngest]) and
    [data/database.py] (class [DatabaseClient]).

    The program talks to three collaborators: the upstream HTTP API, arbitrary
    web pages, and an SQLite table.  Their answers are supplied by an
    environment record [Env]; everything the program does to them (requests,
    sleeps, log calls, table writes) is recorded in the [trace] of the
    [State], newest event first.  Wall-clock time is the rational [clock]:
    a request advances it by the round-trip time the environment reports,
    [time.sleep d] advances it by [d].  The readings of [time.time()] are
    floats; the one place where the program computes with them subtracts
    with the environment's [float_sub]. *)

From Stdlib Require Import QArith Qminmax Lqa.
From stdpp Require Import base option list sets gmap strings.

Local Open Scope string_scope.
Local Open Scope Z_scope.
Local Open Scope list_scope.

(** ** Exceptions and results *)

(** The subclasses of Python's [Exception] that the modelled code can meet.
    Asynchronous signals ([KeyboardInterrupt]) are outside the model. *)
Inductive exception : Type :=
| HTTPError (status : Z)      (* resp.raise_for_status() *)
| RequestException            (* requests.get itself fails: transport, timeout, bad URL *)
| JSONDecodeError             (* resp.json() on a body that is not JSON *)
| AttributeError              (* .get / .strip on a value of the wrong shape *)
| SQLAlchemyError.            (* df.to_sql *)

Inductive result (A : Type) : Type :=
| Return (a : A)
| Raise (e : exception).
Arguments Return {A} a.
Arguments Raise {A} e.

(** ** The upstream JSON, as far as the code reads it

    Every [d.get(k, default)] of the source is an [option] field here:
    [None] is a missing key.  A key that is present holds a value of the
    type shown: an id is a string, so a feed whose "uri" is null (which would
    be stored as NULL and never read back as a known id) is not covered. *)

Record external := { ext_title : option string; ext_uri : option string }.
Record embed := { emb_external : option external }.
Record record := {
  rec_type : option string;        (* "$type" *)
  rec_text : option string;
  rec_createdAt : option string;
  rec_embed : option embed }.
Record author := { displayName : option string }.
Record post := {
  uri : option string;
  post_record : option record;
  post_author : option author }.

(** A feed entry, by what the loop body of [_collect_posts] can do with it.
    - [Item p]: a JSON object with an optional "post" key, every field of
      which has the shape the body expects.
    - [IllShaped p]: an object whose "post", "record", "$type" and "uri" read
      as in [p], but on which building the row raises: the author, the embed
      or its external is not an object, or the text is not a string.  These
      are read only inside [posts.append({...})], after both tests.
    - [Malformed]: a value on which the reads before the tests raise: the
      entry, its post or its record is not an object. *)
Inductive feed_item : Type :=
| Item (p : option post)
| IllShaped (p : option post)
| Malformed.

(** What [resp.json()] yields: an object with an optional "feed" list, or some
    other JSON value (on which [.get] raises). *)
Inductive json : Type :=
| JsonObject (feed : option (list feed_item))
| JsonOther.

Inductive body : Type :=
| JsonText (j : json)
| NotJson.

(** One HTTP exchange: how long it took and what came back. *)
Inductive reply (B : Type) : Type :=
| TransportFailure
| Response (status_code : Z) (content : B).
Arguments TransportFailure {B}.
Arguments Response {B} status_code content.

Record exchange (B : Type) := { rtt : Q; answer : reply B }.
Arguments rtt {B} e.
Arguments answer {B} e.

(** The parsed page, as far as [_fetch_metadata] looks at it. *)
Record soup := {
  soup_title : option (option string);       (* soup.title, then its .string *)
  og_description : option (option string);   (* the og:description meta tag, then its content attribute *)
  name_description : option (option string)  (* the name=description meta tag, likewise *) }.

(** ** Rows *)

Record raw_row := {
  raw_uuid : string;
  raw_author : string;
  raw_display_name : string;
  raw_title : string;
  raw_text : string;
  raw_timestamp : string;
  raw_external_url : string }.

Record post_row := {
  uuid : string;
  row_author : string;
  display_name : string;
  title : string;
  text : string;
  timestamp : option Z;          (* None is NaT *)
  external_url : string;
  page_title : string;
  meta_description : string }.

(** A stored row: the uuid column as SQL has it ([None] is NULL) and the row. *)
Record table_row := { col_uuid : option string; col_row : post_row }.

(** ** Events, state, environment *)

Inductive level := DEBUG | INFO | WARNING | ERROR.

Inductive log_msg : Type :=
| NoPostsCollected
| FoundNew (n : nat)
| NoNewPosts
| StartingPerpetual (interval_minutes : Z)
| Sleeping (to_sleep : Q)
| RateLimited
| ErrorFetching (acct : string) (e : exception)
| Inserted (n : nat)
| DbInsertFailed.

Inductive event : Type :=
| EvGetFeed (actor : string) (limit : Z)
| EvGetPage (url : string)
| EvSleep (seconds : Q)
| EvLog (l : level) (m : log_msg)
| EvToDatetime (column : list string)
| EvToSql (df : list post_row).

Record State := {
  existing_uuids : gset string;          (* self.existing_uuids *)
  db : option (list table_row);          (* the posts table; None: no such table *)
  clock : Q;
  trace : list event }.

Record Env := {
  feed_exchange : string → Z → nat → exchange body;   (* actor, limit, attempt *)
  page_exchange : string → exchange string;
  to_sql_fails : list post_row → bool;
  BeautifulSoup : string → soup;
  strip : string → string;
  to_datetime : list string → string → option Z;
  float_sub : Q → Q → Q                               (* x - y on floats: the rounded difference *) }.

(** ** Primitive effects *)

Definition record_event (e : event) (w : State) : State :=
  {| existing_uuids := existing_uuids w; db := db w;
     clock := clock w; trace := e :: trace w |}.

Definition advance (d : Q) (w : State) : State :=
  {| existing_uuids := existing_uuids w; db := db w;
     clock := (clock w + d)%Q; trace := trace w |}.

Definition set_existing_uuids (s : gset string) (w : State) : State :=
  {| existing_uuids := s; db := db w; clock := clock w; trace := trace w |}.

Definition set_db (t : option (list table_row)) (w : State) : State :=
  {| existing_uuids := existing_uuids w; db := t;
     clock := clock w; trace := trace w |}.

(** [time.sleep(d)] *)
Definition time_sleep (d : Q) (w : State) : State :=
  advance d (record_event (EvSleep d) w).

(** [self.logger.<level>(...)] *)
Definition logger (l : level) (m : log_msg) (w : State) : State :=
  record_event (EvLog l m) w.

(** [resp.raise_for_status()] raises on a 4xx or 5xx status. *)
Definition raise_for_status (status_code : Z) : bool :=
  (400 <=? status_code) && (status_code <? 600).

(** ** [DatabaseClient] *)

(** [get_existing_uuids]: the empty set when the table is missing, otherwise
    the non-null values of the uuid column. *)
Definition get_existing_uuids (w : State) : gset string :=
  match db w with
  | None => ∅
  | Some rows => list_to_set (omap col_uuid rows)
  end.

Definition to_table_row (r : post_row) : table_row :=
  {| col_uuid := Some (uuid r); col_row := r |}.

(** [df.to_sql(..., if_exists="append")]: creates the table when it is missing. *)
Definition to_sql (df : list post_row) (t : option (list table_row)) : list table_row :=
  default [] t ++ (to_table_row <$> df).

(** [append_dataframe]: one append; a failure is logged and re-raised. *)
Definition append_dataframe (env : Env) (df : list post_row) (w : State)
  : result unit * State :=
  let w1 := record_event (EvToSql df) w in
  if to_sql_fails env df
  then (Raise SQLAlchemyError, logger ERROR DbInsertFailed w1)
  else (Return tt, logger INFO (Inserted (length df)) (set_db (Some (to_sql df (db w1))) w1)).

(** ** [BlueskyIngest._fetch_author_feed] *)

(** [resp.raise_for_status(); return resp.json()] *)
Definition raise_or_json (status_code : Z) (content : body) : result json :=
  if raise_for_status status_code then Raise (HTTPError status_code)
  else match content with
       | NotJson => Raise JSONDecodeError
       | JsonText j => Return j
       end.

(** The [while True] loop.  [attempt] counts the requests already made in this
    call; [fuel] bounds the iterations, and [None] means the loop is still
    retrying when the fuel is spent. *)
Fixpoint fetch_loop (fuel : nat) (env : Env) (actor : string) (limit : Z)
    (attempt : nat) (w : State) : option (result json * State) :=
  match fuel with
  | O => None
  | S fuel' =>
    let x := feed_exchange env actor limit attempt in
    let w1 := advance (rtt x) (record_event (EvGetFeed actor limit) w) in
    match answer x with
    | TransportFailure => Some (Raise RequestException, w1)
    | Response status_code content =>
      if bool_decide (status_code ≠ 429) then
        Some (raise_or_json status_code content, w1)
      else
        fetch_loop fuel' env actor limit (S attempt)
          (time_sleep 5 (logger WARNING RateLimited w1))
    end
  end.

Definition _fetch_author_feed (fuel : nat) (env : Env) (actor : string)
    (limit : Z) (w : State) : option (result json * State) :=
  fetch_loop fuel env actor limit 0 w.

(** ** [BlueskyIngest._collect_posts] *)

Definition empty_post : post :=
  {| uri := None; post_record := None; post_author := None |}.
Definition empty_record : record :=
  {| rec_type := None; rec_text := None; rec_createdAt := None; rec_embed := None |}.
Definition empty_author : author := {| displayName := None |}.
Definition empty_embed : embed := {| emb_external := None |}.
Definition empty_external : external := {| ext_title := None; ext_uri := None |}.

(** [rec.get("embed", {}).get("external", {})] *)
Definition embed_external (rec : record) : external :=
  default empty_external (emb_external (default empty_embed (rec_embed rec))).

(** The body of [for item in feed], for one well-formed item: [None] is
    [continue], [Some r] is [posts.append(r)]. *)
Definition collect_item (env : Env) (existing : gset string) (acct : string)
    (p : option post) : option raw_row :=
  let post := default empty_post p in
  let rec := default empty_record (post_record post) in
  let auth := default empty_author (post_author post) in
  if bool_decide (rec_type rec ≠ Some "app.bsky.feed.post") then None
  else
    let uuid := default "" (uri post) in
    if bool_decide (uuid ∈ existing) then None
    else Some {| raw_uuid := uuid;
                 raw_author := acct;
                 raw_display_name := default "" (displayName auth);
                 raw_title := default "" (ext_title (embed_external rec));
                 raw_text := strip env (default "" (rec_text rec));
                 raw_timestamp := default "" (rec_createdAt rec);
                 raw_external_url := default "" (ext_uri (embed_external rec)) |}.

(** [for item in feed]: returns the grown [posts] list and the exception that
    cut the loop short, if any.  Rows appended before the exception stay.
    An ill-shaped entry goes through the two tests like any other, and raises
    only where its row would be built. *)
Fixpoint collect_feed (env : Env) (existing : gset string) (acct : string)
    (feed : list feed_item) (posts : list raw_row)
  : list raw_row * option exception :=
  match feed with
  | [] => (posts, None)
  | Malformed :: _ => (posts, Some AttributeError)
  | IllShaped p :: rest =>
    match collect_item env existing acct p with
    | None => collect_feed env existing acct rest posts     (* [continue] *)
    | Some _ => (posts, Some AttributeError)                (* inside [posts.append({...})] *)
    end
  | Item p :: rest =>
    match collect_item env existing acct p with
    | None => collect_feed env existing acct rest posts
    | Some r => collect_feed env existing acct rest (posts ++ [r])
    end
  end.

(** The [try] block of one account, after the fetch returned [j]. *)
Definition collect_account (env : Env) (acct : string) (j : json)
    (posts : list raw_row) (w : State) : list raw_row * State :=
  match j with
  | JsonOther => (posts, logger ERROR (ErrorFetching acct AttributeError) w)
  | JsonObject feed =>
    match collect_feed env (existing_uuids w) acct (default [] feed) posts with
    | (posts', Some e) => (posts', logger ERROR (ErrorFetching acct e) w)
    | (posts', None) => (posts', time_sleep 5 w)
    end
  end.

(** [for acct in self.accounts] with its [try ... except Exception]. *)
Fixpoint collect_accounts (fuel : nat) (env : Env) (accounts : list string)
    (posts : list raw_row) (w : State) : option (list raw_row * State) :=
  match accounts with
  | [] => Some (posts, w)
  | acct :: rest =>
    match _fetch_author_feed fuel env acct 10 w with
    | None => None
    | Some (Raise e, w1) =>
      collect_accounts fuel env rest posts (logger ERROR (ErrorFetching acct e) w1)
    | Some (Return j, w1) =>
      let '(posts', w2) := collect_account env acct j posts w1 in
      collect_accounts fuel env rest posts' w2
    end
  end.

(** [DataFrame.drop_duplicates(subset="uuid")], keep="first": a row goes when
    an earlier row has its uuid. *)
Fixpoint drop_duplicates_from (seen : list string) (df : list raw_row) : list raw_row :=
  match df with
  | [] => []
  | r :: rest =>
    if bool_decide (raw_uuid r ∈ seen) then drop_duplicates_from seen rest
    else r :: drop_duplicates_from (raw_uuid r :: seen) rest
  end.

Definition drop_duplicates (df : list raw_row) : list raw_row :=
  drop_duplicates_from [] df.

Definition _collect_posts (fuel : nat) (env : Env) (accounts : list string)
    (w : State) : option (list raw_row * State) :=
  match collect_accounts fuel env accounts [] w with
  | None => None
  | Some (posts, w1) => Some (drop_duplicates posts, w1)
  end.

(** ** [BlueskyIngest._fetch_metadata] *)

(** The [try] block, once the page exchange is known. *)
Definition fetch_metadata_try (env : Env) (url : string) : result (string * string) :=
  match answer (page_exchange env url) with
  | TransportFailure => Raise RequestException
  | Response status_code r_text =>
    if raise_for_status status_code then Raise (HTTPError status_code)
    else
      let soup := BeautifulSoup env r_text in
      match
        match soup_title soup with
        | Some (Some s) => Return (strip env s)
        | Some None => Raise AttributeError      (* None.strip() *)
        | None => Return ""
        end
      with
      | Raise e => Raise e
      | Return title =>
        let meta :=
          match og_description soup with
          | Some m => Some m
          | None => name_description soup
          end in
        let desc :=
          match meta with
          | Some (Some content) => strip env content
          | _ => ""
          end in
        Return (title, desc)
      end
  end.

(** [try: ... except Exception: return "", ""] *)
Definition _fetch_metadata (env : Env) (url : string) (w : State)
  : (string * string) * State :=
  let w1 := advance (rtt (page_exchange env url)) (record_event (EvGetPage url) w) in
  match fetch_metadata_try env url with
  | Return p => (p, w1)
  | Raise _ => (("", ""), w1)
  end.

(** ** [BlueskyIngest._enrich_dataframe] *)

Definition enrich_row (parse : string → option Z) (r : raw_row)
    (meta : string * string) : post_row :=
  {| uuid := raw_uuid r;
     row_author := raw_author r;
     display_name := raw_display_name r;
     title := raw_title r;
     text := raw_text r;
     timestamp := parse (raw_timestamp r);
     external_url := raw_external_url r;
     page_title := meta.1;
     meta_description := meta.2 |}.

(** [df["external_url"].apply(...)]: one metadata fetch per row, in row order. *)
Fixpoint apply_fetch_metadata (env : Env) (parse : string → option Z)
    (df : list raw_row) (w : State) : list post_row * State :=
  match df with
  | [] => ([], w)
  | r :: rest =>
    let '(meta, w1) := _fetch_metadata env (raw_external_url r) w in
    let '(rows, w2) := apply_fetch_metadata env parse rest w1 in
    (enrich_row parse r meta :: rows, w2)
  end.

Definition _enrich_dataframe (env : Env) (df : list raw_row) (w : State)
  : list post_row * State :=
  match df with
  | [] => ([], w)
  | _ =>
    let column := raw_timestamp <$> df in
    let w1 := record_event (EvToDatetime column) w in
    apply_fetch_metadata env (to_datetime env column) df w1
  end.

(** ** [BlueskyIngest.run] *)

(** [raw_df[~raw_df["uuid"].isin(self.existing_uuids)]] *)
Definition not_isin (existing : gset string) (df : list raw_row) : list raw_row :=
  filter (λ r, raw_uuid r ∉ existing) df.

(** The test [raw_df.empty or "uuid" not in raw_df.columns] is the test for
    an empty row list: every dictionary appended by [_collect_posts] has
    the key "uuid", so the column is missing only from the empty frame. *)
Definition run (fuel : nat) (env : Env) (accounts : list string) (w : State)
  : option (result unit * State) :=
  let w0 := set_existing_uuids (get_existing_uuids w) w in
  match _collect_posts fuel env accounts w0 with
  | None => None
  | Some (raw_df, w1) =>
    match raw_df with
    | [] => Some (Return tt, logger INFO NoPostsCollected w1)
    | _ =>
      let new_df := not_isin (existing_uuids w1) raw_df in
      let w2 := logger INFO (FoundNew (length new_df)) w1 in
      let '(enriched, w3) := _enrich_dataframe env new_df w2 in
      match enriched with
      | [] => Some (Return tt, logger INFO NoNewPosts w3)
      | _ => Some (append_dataframe env enriched w3)
      end
    end
  end.

(** ** [BlueskyIngest.run_forever] *)

(** One turn of the [while True] loop.  [start] and the second reading of
    [time.time()] are floats, and so is [interval_minutes * 60 - elapsed]:
    both differences are the environment's [float_sub]. *)
Definition iteration (fuel : nat) (env : Env) (accounts : list string)
    (interval_minutes : Z) (w : State) : option (result unit * State) :=
  let start := clock w in
  match run fuel env accounts w with
  | None => None
  | Some (Raise e, w1) => Some (Raise e, w1)
  | Some (Return _, w1) =>
    let elapsed := float_sub env (clock w1) start in
    let to_sleep := float_sub env (inject_Z (interval_minutes * 60)) elapsed in
    if negb (Qle_bool to_sleep 0)
    then Some (Return tt, time_sleep to_sleep (logger DEBUG (Sleeping to_sleep) w1))
    else Some (Return tt, w1)
  end.

(** How the loop stands after a bounded number of turns. *)
Inductive loop_state : Type :=
| StillLooping (w : State)                  (* every turn so far completed *)
| Propagated (e : exception) (w : State).   (* an exception left [run_forever] *)

(** [turns] turns of the loop.  The only handler around the loop is for
    [KeyboardInterrupt], so an exception raised by [run] leaves the loop. *)
Fixpoint loop (turns fuel : nat) (env : Env) (accounts : list string)
    (interval_minutes : Z) (w : State) : option loop_state :=
  match turns with
  | O => Some (StillLooping w)
  | S turns' =>
    match iteration fuel env accounts interval_minutes w with
    | None => None
    | Some (Raise e, w1) => Some (Propagated e w1)
    | Some (Return _, w1) => loop turns' fuel env accounts interval_minutes w1
    end
  end.

Definition run_forever (turns fuel : nat) (env : Env) (accounts : list string)
    (interval_minutes : Z) (w : State) : option loop_state :=
  loop turns fuel env accounts interval_minutes
    (logger INFO (StartingPerpetual interval_minutes) w).

(** ** Vocabulary of the statements *)

(** The part of the state that only [run] and [append_dataframe] write. *)
Definition frame (w w' : State) : Prop :=
  existing_uuids w' = existing_uuids w ∧ db w' = db w.

(** [w'] was reached from [w] by recording [evs] (newest first). *)
Definition emits (w w' : State) (evs : list event) : Prop :=
  trace w' = evs ++ trace w.

(** The durations of the [time.sleep] calls of a trace. *)
Definition sleeps_of (evs : list event) : list Q :=
  omap (λ e, match e with EvSleep d => Some d | _ => None end) evs.

(** The frames handed to [to_sql] in a trace. *)
Definition to_sql_calls (evs : list event) : list (list post_row) :=
  omap (λ e, match e with EvToSql df => Some df | _ => None end) evs.

(** The accounts requested from the upstream in a trace. *)
Definition feed_requests (evs : list event) : list string :=
  omap (λ e, match e with EvGetFeed actor _ => Some actor | _ => None end) evs.

(** Events of enrichment and of persistence. *)
Definition enrich_or_persist (e : event) : bool :=
  match e with
  | EvGetPage _ | EvToDatetime _ | EvToSql _ => true
  | _ => false
  end.

(** The "$type" and the id that [_collect_posts] reads off a feed entry. *)
Definition item_type (p : option post) : option string :=
  rec_type (default empty_record (post_record (default empty_post p))).

Definition item_uuid (p : option post) : string :=
  default "" (uri (default empty_post p)).

Definition quiet (evs : list event) : Prop :=
  Forall (λ e, enrich_or_persist e = false) evs.

(** The pair [_fetch_metadata] returns for a URL, the state left aside. *)
Definition metadata (env : Env) (url : string) : string * string :=
  match fetch_metadata_try env url with
  | Return p => p
  | Raise _ => ("", "")
  end.

(** The frame [_enrich_dataframe] returns for [df], the state left aside. *)
Definition enriched (env : Env) (df : list raw_row) : list post_row :=
  (λ r, enrich_row (to_datetime env (raw_timestamp <$> df)) r
          (metadata env (raw_external_url r))) <$> df.

Definition is_429 (r : reply body) : bool :=
  match r with
  | Response status_code _ => bool_decide (status_code = 429)
  | TransportFailure => false
  end.

(** What [_fetch_author_feed] does with a reply that is not a rate limit. *)
Definition settle (r : reply body) : result json :=
  match r with
  | TransportFailure => Raise RequestException
  | Response status_code content => raise_or_json status_code content
  end.

(** The trace of [n] rate-limited rounds: request, warning, cooldown. *)
Fixpoint retry_events (actor : string) (limit : Z) (n : nat) : list event :=
  match n with
  | O => []
  | S n' =>
    EvSleep 5 :: EvLog WARNING RateLimited :: EvGetFeed actor limit
      :: retry_events actor limit n'
  end.

(** The duration the scheduler measures for a run from [w] that ended in
    [w1], and what it computes from it. *)
Definition elapsed (env : Env) (w w1 : State) : Q :=
  float_sub env (clock w1) (clock w).

Definition to_sleep (env : Env) (interval_minutes : Z) (w w1 : State) : Q :=
  float_sub env (inject_Z (interval_minutes * 60)) (elapsed env w w1).

(** What the statements about the schedule use of float subtraction: the
    difference of [x <= y] is not positive, and a difference that is a whole
    number below 2^53 is computed exactly. *)
Definition rounds_difference (sub : Q → Q → Q) : Prop :=
  (∀ x y, (x <= y)%Q → (sub x y <= 0)%Q)
  ∧ (∀ x y (n : Z), (x - y == inject_Z n)%Q → Z.abs n ≤ 2 ^ 53 → (sub x y == inject_Z n)%Q).

(** No entry whose row cannot be built carries an id that was stored between
    [w] and [w1]. *)
Definition ill_shaped_stay_unknown (env : Env) (w w1 : State) : Prop :=
  ∀ actor attempt status_code items p,
    answer (feed_exchange env actor 10 attempt)
    = Response status_code (JsonText (JsonObject (Some items))) →
    IllShaped p ∈ items →
    item_uuid p ∈ get_existing_uuids w1 → item_uuid p ∈ get_existing_uuids w.

(** ** Concrete feeds, pages and stores *)

Definition a_post (id : option string) : feed_item :=
  Item (Some {| uri := id;
                post_record :=
                  Some {| rec_type := Some "app.bsky.feed.post";
                          rec_text := Some "hello";
                          rec_createdAt := Some "2024-05-01T10:00:00Z";
                          rec_embed := None |};
                post_author := Some {| displayName := Some "Name" |} |}).

Definition ok (items : list feed_item) : exchange body :=
  {| rtt := 1; answer := Response 200 (JsonText (JsonObject (Some items))) |}.

Definition status (code : Z) : exchange body :=
  {| rtt := 1; answer := Response code NotJson |}.

Definition unreachable : exchange string :=
  {| rtt := 0; answer := TransportFailure |}.

Definition no_soup : soup :=
  {| soup_title := None; og_description := None; name_description := None |}.

Definition example_env (feeds : string → nat → exchange body)
    (pages : string → exchange string) (parser : string → soup) (fails : bool) : Env :=
  {| feed_exchange := λ actor _ attempt, feeds actor attempt;
     page_exchange := pages;
     to_sql_fails := λ _, fails;
     BeautifulSoup := parser;
     strip := λ s, s;
     to_datetime := λ _ _, None;
     float_sub := Qminus |}.

(** The store right after [DatabaseClient.__init__]: the table exists and is
    empty. *)
Definition fresh : State :=
  {| existing_uuids := ∅; db := Some []; clock := 0; trace := [] |}.

(** A store in which the table does not exist. *)
Definition no_table : State :=
  {| existing_uuids := ∅; db := None; clock := 0; trace := [] |}.

(** Account A returns p1, p2, p3; account B returns p3, p4. *)
Definition feeds_AB (actor : string) (attempt : nat) : exchange body :=
  if String.eqb actor "A"
  then ok [a_post (Some "p1"); a_post (Some "p2"); a_post (Some "p3")]
  else if String.eqb actor "B"
  then ok [a_post (Some "p3"); a_post (Some "p4")]
  else status 404.

Definition scenario_env : Env := example_env feeds_AB (λ _, unreachable) (λ _, no_soup) false.

(** Account A is rate-limited twice, then answers; account B answers 500. *)
Definition feeds_limited (actor : string) (attempt : nat) : exchange body :=
  if String.eqb actor "A"
  then if (attempt <? 2)%nat then status 429 else ok [a_post (Some "p1")]
  else if String.eqb actor "B" then status 500
  else ok [a_post (Some "p9")].

Definition limited_env : Env :=
  example_env feeds_limited (λ _, unreachable) (λ _, no_soup) false.

(** One post without a "uri" key. *)
Definition missing_uri_env : Env :=
  example_env (λ _ _, ok [a_post None]) (λ _, unreachable) (λ _, no_soup) false.

(** One post without a "uri" key, then one with the id p1. *)
Definition mixed_uri_env : Env :=
  example_env (λ _ _, ok [a_post None; a_post (Some "p1")])
    (λ _, unreachable) (λ _, no_soup) false.

(** A table that already holds a row with the empty id. *)
Definition stored_empty_id : State :=
  {| existing_uuids := ∅;
     db := Some [ {| col_uuid := Some "";
                     col_row := {| uuid := ""; row_author := "A"; display_name := "Name";
                                   title := ""; text := "hello"; timestamp := None;
                                   external_url := ""; page_title := "";
                                   meta_description := "" |} |} ];
     clock := 0;
     trace := [] |}.

(** The table refuses every append. *)
Definition failing_db_env : Env :=
  example_env feeds_AB (λ _, unreachable) (λ _, no_soup) true.

(** A page without a title tag but with a description. *)
Definition untitled_env : Env :=
  example_env feeds_AB (λ _, {| rtt := 1; answer := Response 200 "<html>" |})
    (λ _, {| soup_title := None; og_description := None;
             name_description := Some (Some "about") |})
    false.

(** A post-typed entry with the id [id] whose text is null: what the two
    tests read of it, and the entry. *)
Definition null_text_post (id : option string) : option post :=
  Some {| uri := id;
          post_record :=
            Some {| rec_type := Some "app.bsky.feed.post";
                    rec_text := None;
                    rec_createdAt := Some "2024-05-01T10:00:00Z";
                    rec_embed := None |};
          post_author := Some {| displayName := Some "Name" |} |}.

Definition null_text (id : option string) : feed_item := IllShaped (null_text_post id).

(** Every feed is p1, then p1 again with a null text, then p2. *)
Definition null_text_env : Env :=
  example_env (λ _ _, ok [a_post (Some "p1"); null_text (Some "p1"); a_post (Some "p2")])
    (λ _, unreachable) (λ _, no_soup) false.

(** A page with a title and both description tags. *)
Definition both_tags_env : Env :=
  example_env feeds_AB (λ _, {| rtt := 1; answer := Response 200 "<html>" |})
    (λ _, {| soup_title := Some (Some "Title");
             og_description := Some (Some "from og");
             name_description := Some (Some "from name") |})
    false.

(** ** Startup: [DatabaseClient._ensure_table], [_load_config],
    [_setup_logger], [_create_session], [_load_accounts_file], [__init__]
    and [main]

    What the process finds when it starts is a [Host]: the environment
    variables (after [load_dotenv]), the files, the answer of the session
    endpoint.  Startup has its own exceptions, log lines and events; the
    events are listed newest first, like a [trace].  The table on which
    [DatabaseClient] works, the one named by TABLE_NAME in the database at
    DATABASE_URL, is the [db] of the [State]; how [DatabaseClient.__init__]
    resolves the path and opens the engine is not modelled. *)

Inductive startup_error : Type :=
| FileNotFoundError (path : string)
| KeyError (key : string)
| Uncaught (e : exception).

Inductive started (A : Type) : Type :=
| Started (a : A)
| Fatal (e : startup_error).
Arguments Started {A} a.
Arguments Fatal {A} e.

(** What [resp.json()] yields for the session request: an object with an
    optional "accessJwt", or no JSON at all. *)
Inductive session_body : Type :=
| SessionJson (accessJwt : option string)
| SessionNotJson.

Inductive startup_msg : Type :=
| CreatedTable
| AccountsNotFound (path : string)
| LoadedAccounts (n : nat) (path : string).

Inductive startup_event : Type :=
| SevLog (l : level) (m : startup_msg)
| SevCreateTable
| SevCreateSession (identifier password : string)
| SevOpen (path : string).

Record Host := {
  base_dir : string;
  environ : gmap string string;
  path_join : string → string → string;        (* os.path.join *)
  str_lower : string → string;                 (* str.lower *)
  isfile : string → bool;
  readlines : string → list string;            (* the lines, newline included *)
  session_exchange : string → string → reply session_body }.

(** [os.getenv(key, default)] *)
Definition getenv (h : Host) (key default_value : string) : string :=
  default default_value (environ h !! key).

Record config := {
  BASE_DIR : string;
  DATA_DIR : string;
  BLUESKY_USER : string;
  BLUESKY_PW : string;
  cfg_DEBUG : bool }.

Definition _load_config (h : Host) : config :=
  {| BASE_DIR := base_dir h;
     DATA_DIR := path_join h (base_dir h) "data";
     BLUESKY_USER := getenv h "BLUESKY_HANDLE" "";
     BLUESKY_PW := getenv h "BLUESKY_APP_PASSWORD" "";
     cfg_DEBUG := bool_decide (str_lower h (getenv h "DEBUG" "0") ∈ ["1"; "true"; "yes"]) |}.

Definition _setup_logger (debug_enabled : bool) : level :=
  if debug_enabled then DEBUG else INFO.

(** [_ensure_table]: create the empty table when there is none. *)
Definition _ensure_table (t : option (list table_row))
  : option (list table_row) * list startup_event :=
  match t with
  | Some rows => (Some rows, [])
  | None => (Some [], [SevLog INFO CreatedTable; SevCreateTable])
  end.

(** [_create_session]: one POST; any failure propagates. *)
Definition _create_session (h : Host) (cfg : config)
  : started string * list startup_event :=
  let ev := SevCreateSession (BLUESKY_USER cfg) (BLUESKY_PW cfg) in
  match session_exchange h (BLUESKY_USER cfg) (BLUESKY_PW cfg) with
  | TransportFailure => (Fatal (Uncaught RequestException), [ev])
  | Response status_code content =>
    if raise_for_status status_code
    then (Fatal (Uncaught (HTTPError status_code)), [ev])
    else match content with
         | SessionNotJson => (Fatal (Uncaught JSONDecodeError), [ev])
         | SessionJson None => (Fatal (KeyError "accessJwt"), [ev])
         | SessionJson (Some accessJwt) => (Started accessJwt, [ev])
         end
  end.

(** The test of the list comprehension: [l.strip() and not l.startswith("#")]. *)
Definition account_line (env : Env) (l : string) : bool :=
  bool_decide (strip env l ≠ "") && negb (String.prefix "#" l).

Definition _load_accounts_file (env : Env) (h : Host) (cfg : config)
  : started (list string) * list startup_event :=
  let accounts_path := path_join h (DATA_DIR cfg) "accounts.txt" in
  if negb (isfile h accounts_path)
  then (Fatal (FileNotFoundError accounts_path),
        [SevLog ERROR (AccountsNotFound accounts_path)])
  else
    let lines := strip env <$> filter (λ l, account_line env l = true)
                                  (readlines h accounts_path) in
    (Started lines,
     [SevLog DEBUG (LoadedAccounts (length lines) accounts_path); SevOpen accounts_path]).

Record BlueskyIngest := {
  cfg : config;
  logger_level : level;
  token : string;
  headers : string * string;
  accounts : list string }.

(** [__init__]: configuration, logger, database client (which ensures the
    table), the stored ids, the session, the accounts.  The state returned is
    the one the object starts with, also when startup fails half-way. *)
Definition __init__ (env : Env) (h : Host) (accounts_arg : option (list string))
    (debug : option bool) (w : State)
  : started BlueskyIngest * State * list startup_event :=
  let cfg0 := _load_config h in
  let cfg1 :=
    match debug with
    | Some d => {| BASE_DIR := BASE_DIR cfg0; DATA_DIR := DATA_DIR cfg0;
                   BLUESKY_USER := BLUESKY_USER cfg0; BLUESKY_PW := BLUESKY_PW cfg0;
                   cfg_DEBUG := d |}
    | None => cfg0
    end in
  let lvl := _setup_logger (cfg_DEBUG cfg1) in
  let '(t, evs_db) := _ensure_table (db w) in
  let w1 := set_db t w in
  let w2 := set_existing_uuids (get_existing_uuids w1) w1 in
  match _create_session h cfg1 with
  | (Fatal e, evs_s) => (Fatal e, w2, evs_s ++ evs_db)
  | (Started tok, evs_s) =>
    match
      match accounts_arg with
      | Some (a :: l) => (Started (a :: l), [])      (* [accounts or ...] *)
      | _ => _load_accounts_file env h cfg1
      end
    with
    | (Fatal e, evs_a) => (Fatal e, w2, evs_a ++ evs_s ++ evs_db)
    | (Started accts, evs_a) =>
      (Started {| cfg := cfg1; logger_level := lvl; token := tok;
                  headers := ("Authorization", "Bearer " +:+ tok);
                  accounts := accts |},
       w2, evs_a ++ evs_s ++ evs_db)
    end
  end.

(** [main]: build the job, then loop every 5 minutes. *)
Definition main (turns fuel : nat) (env : Env) (h : Host) (w : State)
  : started (option loop_state) * list startup_event :=
  match __init__ env h None None w with
  | (Fatal e, _, evs) => (Fatal e, evs)
  | (Started job, w1, evs) => (Started (run_forever turns fuel env (accounts job) 5 w1), evs)
  end.

(** What constructing the [DatabaseClient] does to the state. *)
Definition ensured (w : State) : State := set_db (_ensure_table (db w)).1 w.

(** ** More vocabulary *)

(** The pages requested in a trace. *)
Definition page_requests (evs : list event) : list string :=
  omap (λ e, match e with EvGetPage url => Some url | _ => None end) evs.

(** The state a loop has reached. *)
Definition loop_final (s : loop_state) : State :=
  match s with
  | StillLooping w => w
  | Propagated _ w => w
  end.

(** The stored ids, in table order. *)
Definition stored_ids (w : State) : list string :=
  omap col_uuid (default [] (db w)).

(** An entry passes the two tests of the loop body: it is of post type and
    its id is not in [E]. *)
Definition passes (E : gset string) (p : option post) : bool :=
  bool_decide (item_type p = Some "app.bsky.feed.post") && bool_decide (item_uuid p ∉ E).

(** The entries at which [for item in feed] raises, with [E] the known ids. *)
Definition raises_at (E : gset string) (it : feed_item) : bool :=
  match it with
  | Item _ => false
  | IllShaped p => passes E p
  | Malformed => true
  end.

(** The well-shaped entries that [for item in feed] reaches: those before
    the first entry at which it raises. *)
Fixpoint entries_reached (E : gset string) (feed : list feed_item) : list (option post) :=
  match feed with
  | [] => []
  | it :: rest =>
    if raises_at E it then []
    else match it with
         | Item p => p :: entries_reached E rest
         | _ => entries_reached E rest
         end
  end.

(** A host with credentials, an accounts file and a session endpoint that
    accepts them. *)
Definition example_host (lines : option (list string)) (session : reply session_body) : Host :=
  {| base_dir := "/srv/app";
     environ := {[ "BLUESKY_HANDLE" := "me.bsky.social"; "BLUESKY_APP_PASSWORD" := "secret" ]};
     path_join := λ a b, a +:+ "/" +:+ b;
     str_lower := λ s, s;
     isfile := λ _, bool_decide (is_Some lines);
     readlines := λ _, default [] lines;
     session_exchange := λ _ _, session |}.

(** The ASCII part of [str.strip], for the examples. *)
Definition is_space (a : Ascii.ascii) : bool :=
  let n := Ascii.nat_of_ascii a in
  (n =? 32)%nat || ((9 <=? n)%nat && (n <=? 13)%nat) || ((28 <=? n)%nat && (n <=? 31)%nat).

Fixpoint lstrip (s : string) : string :=
  match s with
  | String a s' => if is_space a then lstrip s' else s
  | EmptyString => EmptyString
  end.

Fixpoint rstrip (s : string) : string :=
  match s with
  | String a s' =>
    match rstrip s' with
    | EmptyString => if is_space a then EmptyString else String a EmptyString
    | t => String a t
    end
  | EmptyString => EmptyString
  end.

Definition ascii_strip (s : string) : string := rstrip (lstrip s).

(** The reference scenario with a [strip] that strips. *)
Definition stripping_env : Env :=
  {| feed_exchange := feed_exchange scenario_env;
     page_exchange := page_exchange scenario_env;
     to_sql_fails := to_sql_fails scenario_env;
     BeautifulSoup := BeautifulSoup scenario_env;
     strip := ascii_strip;
     to_datetime := to_datetime scenario_env;
     float_sub := float_sub scenario_env |}.

(** An accounts file: two accounts, a blank line, a comment and an indented
    comment. *)
Definition accounts_txt : list string :=
  ["A" +:+ "
"; "
"; "# the team" +:+ "
"; "  B  " +:+ "
"; "  # later"].

Definition accepted : reply session_body := Response 200 (SessionJson (Some "jwt")).

(** * Proofs *)

(** ** The rate-limit loop *)

Section RateLimit.
  Context (env : Env) (actor : string) (limit : Z).

Lemma retry_events_snoc n :
  retry_events actor limit n ++ [EvSleep 5; EvLog WARNING RateLimited; EvGetFeed actor limit]
  = retry_events actor limit (S n).
Proof.
  induction n as [|n IH]; [reflexivity|].
  cbn [retry_events app] in *. by rewrite IH.
Qed.

Lemma sleeps_of_retry_events n :
  sleeps_of (retry_events actor limit n) = replicate n (inject_Z 5).
Proof.
  induction n as [|n IH]; [reflexivity|].
  simpl. unfold sleeps_of in *. simpl. by rewrite IH.
Qed.

Lemma fetch_loop_frame fuel :
  ∀ k w r w', fetch_loop fuel env actor limit k w = Some (r, w') → frame w w'.
Proof.
  induction fuel as [|fuel IH]; intros k w r w' H; [discriminate|].
  simpl in H. destruct (answer _) as [|sc c].
  - injection H as <- <-. by split.
  - case_bool_decide.
    + injection H as <- <-. by split.
    + apply IH in H. destruct H as [H1 H2]. by split.
Qed.

Lemma not_429_decide (status_code : Z) (content : body) :
  bool_decide (status_code ≠ 429) = negb (is_429 (Response status_code content)).
Proof. simpl. by repeat case_bool_decide. Qed.

(** [n] rate limits from attempt [k] on, then something else: the loop makes
    [n] rounds and settles the reply of attempt [k + n]. *)
Lemma fetch_loop_retries n :
  ∀ fuel k w,
    (∀ i, (i < n)%nat → is_429 (answer (feed_exchange env actor limit (k + i))) = true) →
    is_429 (answer (feed_exchange env actor limit (k + n))) = false →
    (n < fuel)%nat →
    ∃ w', fetch_loop fuel env actor limit k w
          = Some (settle (answer (feed_exchange env actor limit (k + n))), w')
        ∧ trace w' = EvGetFeed actor limit :: retry_events actor limit n ++ trace w.
Proof.
  induction n as [|n IH]; intros fuel k w Hlim Hfin Hfuel.
  - destruct fuel as [|fuel]; [lia|]. rewrite Nat.add_0_r in *.
    cbn [fetch_loop]. destruct (answer _) as [|sc c] eqn:E.
    + eexists; split; reflexivity.
    + rewrite (not_429_decide sc c), Hfin. eexists; split; reflexivity.
  - destruct fuel as [|fuel]; [lia|].
    pose proof (Hlim 0%nat ltac:(lia)) as H0. rewrite Nat.add_0_r in H0.
    cbn [fetch_loop].
    destruct (answer (feed_exchange env actor limit k)) as [|sc c] eqn:E;
      [discriminate|].
    rewrite (not_429_decide sc c), H0. cbn [negb].
    destruct (IH fuel (S k)
                (time_sleep 5 (logger WARNING RateLimited
                   (advance (rtt (feed_exchange env actor limit k))
                      (record_event (EvGetFeed actor limit) w)))))
      as (w' & Hw' & Htr).
    + intros i Hi. replace (S k + i)%nat with (k + S i)%nat by lia.
      apply Hlim. lia.
    + by replace (S k + n)%nat with (k + S n)%nat by lia.
    + lia.
    + exists w'. replace (k + S n)%nat with (S k + n)%nat by lia.
      split; [exact Hw'|].
      rewrite Htr. cbn [time_sleep logger advance record_event trace].
      rewrite <- retry_events_snoc, <- app_assoc. reflexivity.
Qed.

(** All replies rate-limited: the loop never leaves, whatever the fuel. *)
Lemma fetch_loop_starves fuel :
  ∀ k w,
    (∀ i, is_429 (answer (feed_exchange env actor limit (k + i))) = true) →
    fetch_loop fuel env actor limit k w = None.
Proof.
  induction fuel as [|fuel IH]; intros k w Hlim; [reflexivity|].
  pose proof (Hlim 0%nat) as H0. rewrite Nat.add_0_r in H0.
  cbn [fetch_loop].
  destruct (answer (feed_exchange env actor limit k)) as [|sc c]; [discriminate|].
  rewrite (not_429_decide sc c), H0. cbn [negb].
  apply IH. intros i. replace (S k + i)%nat with (k + S i)%nat by lia. apply Hlim.
Qed.

(** C6. If the upstream answers [n] times with status 429 and then with
    anything else, [_fetch_author_feed] does not raise on the rate limits: it
    makes exactly [n] cooldown sleeps of 5 seconds, each after a warning, and
    ends with what reply number [n] gives (its JSON when that reply is a
    success).  This holds for every [n], given fuel for [n + 1] rounds. *)
Theorem fetch_author_feed_rate_limit (w : State) (n fuel : nat) :
  (∀ i, (i < n)%nat → is_429 (answer (feed_exchange env actor limit i)) = true) →
  is_429 (answer (feed_exchange env actor limit n)) = false →
  (n < fuel)%nat →
  ∃ w', _fetch_author_feed fuel env actor limit w
        = Some (settle (answer (feed_exchange env actor limit n)), w')
      ∧ trace w' = EvGetFeed actor limit :: retry_events actor limit n ++ trace w
      ∧ sleeps_of (trace w') = replicate n (inject_Z 5) ++ sleeps_of (trace w)
      ∧ ∀ status_code j,
          answer (feed_exchange env actor limit n) = Response status_code (JsonText j) →
          raise_for_status status_code = false →
          _fetch_author_feed fuel env actor limit w = Some (Return j, w').
Proof.
  intros Hlim Hfin Hfuel.
  destruct (fetch_loop_retries n fuel 0%nat w) as (w' & Hw' & Htr);
    [done..|].
  exists w'. unfold _fetch_author_feed. simpl in Hw'.
  split; [exact Hw'|]. split; [exact Htr|]. split.
  - rewrite Htr. unfold sleeps_of at 1. cbn [omap list_omap].
    rewrite omap_app. fold (sleeps_of (retry_events actor limit n)).
    by rewrite sleeps_of_retry_events.
  - intros sc j Hans Hok. rewrite Hw', Hans. simpl.
    unfold raise_or_json. by rewrite Hok.
Qed.

(** When every reply is a rate limit the call is still retrying after any
    number of rounds. *)
Lemma fetch_author_feed_starves (w : State) :
  (∀ i, is_429 (answer (feed_exchange env actor limit i)) = true) →
  ∀ fuel, _fetch_author_feed fuel env actor limit w = None.
Proof. intros Hall fuel. by apply fetch_loop_starves. Qed.

(** What a fetch does to the state does not depend on the state: the same
    result and the same events from any other state, none of them an
    enrichment or persistence event, one of them the request itself. *)
Lemma fetch_loop_effect fuel :
  ∀ k w r w',
    fetch_loop fuel env actor limit k w = Some (r, w') →
    ∃ evs, emits w w' evs
         ∧ EvGetFeed actor limit ∈ evs
         ∧ quiet evs
         ∧ ∀ v, ∃ v', fetch_loop fuel env actor limit k v = Some (r, v')
                    ∧ emits v v' evs ∧ frame v v'.
Proof.
  induction fuel as [|fuel IH]; intros k w r w' H; [discriminate|].
  cbn [fetch_loop] in *. destruct (answer _) as [|sc c].
  - injection H as <- <-. exists [EvGetFeed actor limit].
    split; [reflexivity|]. split; [set_solver|]. split; [by repeat constructor|].
    intros v. eexists. split; [reflexivity|]. by split.
  - destruct (bool_decide (sc ≠ 429)).
    + injection H as <- <-. exists [EvGetFeed actor limit].
      split; [reflexivity|]. split; [set_solver|]. split; [by repeat constructor|].
      intros v. eexists. split; [reflexivity|]. by split.
    + apply IH in H as (evs & Hem & Hin & Hq & Hv).
      exists (evs ++ [EvSleep 5; EvLog WARNING RateLimited; EvGetFeed actor limit]).
      split; [unfold emits in *; rewrite Hem, <- app_assoc; reflexivity|].
      split; [set_solver|].
      split; [apply Forall_app; split; [done | by repeat constructor]|].
      intros v.
      destruct (Hv (time_sleep 5 (logger WARNING RateLimited
                      (advance (rtt (feed_exchange env actor limit k))
                         (record_event (EvGetFeed actor limit) v)))))
        as (v' & Hv' & Hem' & Hfr').
      exists v'. split; [exact Hv'|]. split.
      * unfold emits in *. rewrite Hem', <- app_assoc. reflexivity.
      * destruct Hfr' as [? ?]. by split.
Qed.

(** A JSON value the fetch returns is the content of one of the replies. *)
Lemma fetch_loop_source fuel :
  ∀ k w j w',
    fetch_loop fuel env actor limit k w = Some (Return j, w') →
    ∃ attempt status_code,
      answer (feed_exchange env actor limit attempt) = Response status_code (JsonText j).
Proof.
  induction fuel as [|fuel IH]; intros k w j w' H; [discriminate|].
  cbn [fetch_loop] in H.
  destruct (answer (feed_exchange env actor limit k)) as [|sc c] eqn:Hans; [discriminate|].
  destruct (bool_decide (sc ≠ 429)); [|by eapply IH].
  exists k, sc. rewrite Hans. unfold raise_or_json in H.
  destruct (raise_for_status sc); [discriminate|].
  destruct c as [j'|]; [|discriminate]. by injection H as -> _.
Qed.

Lemma fetch_loop_none fuel :
  ∀ k w v,
    fetch_loop fuel env actor limit k w = None →
    fetch_loop fuel env actor limit k v = None.
Proof.
  induction fuel as [|fuel IH]; intros k w v H; [reflexivity|].
  cbn [fetch_loop] in *. destruct (answer _) as [|sc c]; [discriminate|].
  destruct (bool_decide (sc ≠ 429)); [discriminate|]. by eapply IH.
Qed.

End RateLimit.

(** An instance of C6: two rate limits, then the feed. *)
Lemma fetch_author_feed_rate_limit_witness :
  ∃ w', _fetch_author_feed 3 limited_env "A" 10 fresh
        = Some (Return (JsonObject (Some [a_post (Some "p1")])), w')
      ∧ sleeps_of (trace w') = [inject_Z 5; inject_Z 5].
Proof.
  destruct (fetch_author_feed_rate_limit limited_env "A" 10 fresh 2 3)
    as (w' & Hf & _ & Hs & _).
  - intros i Hi. destruct i as [|[|i]]; [reflexivity|reflexivity|lia].
  - reflexivity.
  - lia.
  - exists w'. split; [exact Hf | exact Hs].
Defined.

(** ** Collecting *)

Section Collect.
  Context (fuel : nat) (env : Env).

Lemma collect_item_Some E acct p r :
  collect_item env E acct p = Some r →
  item_type p = Some "app.bsky.feed.post"
  ∧ raw_uuid r = item_uuid p ∧ (raw_uuid r ∉ E) ∧ raw_author r = acct.
Proof.
  unfold collect_item, item_type, item_uuid.
  case_bool_decide as Ht; [discriminate|].
  case_bool_decide as Hin; [discriminate|].
  intros [= <-]. simpl. split; [|done].
  by destruct (decide (rec_type (default empty_record
                 (post_record (default empty_post p))) = Some "app.bsky.feed.post")).
Qed.

Lemma collect_item_new E acct p :
  item_type p = Some "app.bsky.feed.post" →
  item_uuid p ∉ E →
  ∃ r, collect_item env E acct p = Some r
     ∧ raw_uuid r = item_uuid p ∧ raw_author r = acct.
Proof.
  unfold collect_item, item_type, item_uuid. intros Ht Hin.
  rewrite bool_decide_eq_false_2 by (by intros ?).
  rewrite bool_decide_eq_false_2 by done.
  eexists. split; [reflexivity|]. by split.
Qed.

Lemma collect_item_known E acct p :
  item_uuid p ∈ E → collect_item env E acct p = None.
Proof.
  unfold collect_item, item_uuid. intros Hin.
  case_bool_decide; [done|]. by rewrite bool_decide_eq_true_2.
Qed.

Lemma collect_item_other_type E acct p :
  item_type p ≠ Some "app.bsky.feed.post" → collect_item env E acct p = None.
Proof.
  unfold collect_item, item_type. intros Ht. by rewrite bool_decide_eq_true_2.
Qed.

(** The rows a feed adds do not depend on the rows collected before. *)
Lemma collect_feed_acc E acct feed :
  ∀ posts,
    collect_feed env E acct feed posts
    = (posts ++ (collect_feed env E acct feed []).1, (collect_feed env E acct feed []).2).
Proof.
  induction feed as [|[p|p|] feed IH]; intros posts; cbn [collect_feed].
  - by rewrite app_nil_r.
  - destruct (collect_item env E acct p) as [r|]; [|apply IH].
    rewrite (IH (posts ++ [r])), (IH ([] ++ [r])). cbn [fst snd].
    by rewrite <- !app_assoc.
  - destruct (collect_item env E acct p) as [r|]; [|apply IH].
    by rewrite app_nil_r.
  - by rewrite app_nil_r.
Qed.

Lemma collect_feed_added E acct feed :
  Forall (λ r, (raw_uuid r ∉ E) ∧ raw_author r = acct) (collect_feed env E acct feed []).1.
Proof.
  induction feed as [|[p|p|] feed IH]; cbn [collect_feed app]; [constructor|..|constructor].
  - destruct (collect_item env E acct p) as [r|] eqn:Hr; [|exact IH].
    rewrite (collect_feed_acc E acct feed [r]). cbn [fst app].
    constructor; [|exact IH].
    by apply collect_item_Some in Hr as (_ & _ & ? & ?).
  - destruct (collect_item env E acct p) as [r|]; [constructor|exact IH].
Qed.

(** An entry skipped with fewer ids known is skipped with more. *)
Lemma collect_item_None_mono E1 E2 acct p :
  E1 ⊆ E2 → collect_item env E1 acct p = None → collect_item env E2 acct p = None.
Proof.
  intros Hsub Hn.
  destruct (decide (item_type p = Some "app.bsky.feed.post")) as [Ht|Ht];
    [|by apply collect_item_other_type].
  destruct (decide (item_uuid p ∈ E1)) as [Hin|Hin];
    [apply collect_item_known; set_solver|].
  destruct (collect_item_new E1 acct p Ht Hin) as (r & Hr' & _). congruence.
Qed.

(** With every id this feed added now known, and no ill-shaped entry's id
    among the ids that became known, the feed adds nothing, and the loop over
    it ends the same way. *)
Lemma collect_feed_known E1 E2 acct feed :
  E1 ⊆ E2 →
  (∀ r, r ∈ (collect_feed env E1 acct feed []).1 → raw_uuid r ∈ E2) →
  (∀ p, IllShaped p ∈ feed → item_uuid p ∈ E2 → item_uuid p ∈ E1) →
  collect_feed env E2 acct feed [] = ([], (collect_feed env E1 acct feed []).2).
Proof.
  intros Hsub. induction feed as [|[p|p|] feed IH]; cbn [collect_feed app]; intros Hall Hill;
    [done| | |done].
  - destruct (collect_item env E1 acct p) as [r|] eqn:Hr.
    + rewrite (collect_feed_acc E1 acct feed [r]) in Hall |- *.
      cbn [fst snd app] in *.
      apply collect_item_Some in Hr as (Ht & Hu & _ & _).
      rewrite collect_item_known; [|rewrite <- Hu; apply Hall; set_solver].
      apply IH; [|intros q Hq; apply Hill; set_solver].
      intros r' Hr'. apply Hall. set_solver.
    + rewrite (collect_item_None_mono E1 E2 acct p Hsub Hr).
      apply IH; [done|]. intros q Hq. apply Hill. set_solver.
  - destruct (collect_item env E1 acct p) as [r|] eqn:Hr.
    + apply collect_item_Some in Hr as (Ht & Hu & Hnew & _).
      assert (item_uuid p ∉ E2) as Hnew2.
      { intros Hin. apply Hnew. rewrite Hu. apply Hill; [set_solver|done]. }
      by destruct (collect_item_new E2 acct p Ht Hnew2) as (r2 & -> & _).
    + rewrite (collect_item_None_mono E1 E2 acct p Hsub Hr).
      apply IH; [done|]. intros q Hq. apply Hill. set_solver.
Qed.

Lemma collect_account_acc acct j posts w :
  collect_account env acct j posts w
  = (posts ++ (collect_account env acct j [] w).1, (collect_account env acct j [] w).2).
Proof.
  destruct j as [feed|]; cbn [collect_account]; [|by rewrite app_nil_r].
  rewrite collect_feed_acc.
  by destruct (collect_feed env (existing_uuids w) acct (default [] feed) []) as [? [?|]].
Qed.

(** One account's [try] block: where the state goes and what is added. *)
Lemma collect_account_effect acct j w :
  ∃ ev, (collect_account env acct j [] w).2 = ev w
      ∧ (∀ v, frame v (ev v) ∧ ∃ e, emits v (ev v) [e] ∧ enrich_or_persist e = false)
      ∧ Forall (λ r, (raw_uuid r ∉ existing_uuids w) ∧ raw_author r = acct)
          (collect_account env acct j [] w).1.
Proof.
  destruct j as [feed|]; cbn [collect_account].
  - pose proof (collect_feed_added (existing_uuids w) acct (default [] feed)) as Hadd.
    destruct (collect_feed env (existing_uuids w) acct (default [] feed) [])
      as [added [e|]]; cbn [fst snd] in *.
    + exists (logger ERROR (ErrorFetching acct e)). split; [done|]. split; [|done].
      intros v. split; [done|]. by eexists.
    + exists (time_sleep 5). split; [done|]. split; [|done].
      intros v. split; [done|]. by eexists.
  - exists (logger ERROR (ErrorFetching acct AttributeError)).
    split; [done|]. split; [|constructor].
    intros v. split; [done|]. by eexists.
Qed.

Lemma collect_accounts_acc accounts :
  ∀ posts w,
    collect_accounts fuel env accounts posts w
    = match collect_accounts fuel env accounts [] w with
      | None => None
      | Some (added, w') => Some (posts ++ added, w')
      end.
Proof.
  induction accounts as [|acct rest IH]; intros posts w; cbn [collect_accounts].
  - by rewrite app_nil_r.
  - destruct (_fetch_author_feed fuel env acct 10 w) as [[[j|e] w1]|]; [|apply IH|done].
    rewrite (collect_account_acc acct j posts w1).
    destruct (collect_account env acct j [] w1) as [p1 w2]. cbn [fst snd app].
    rewrite (IH (posts ++ p1)), (IH p1).
    destruct (collect_accounts fuel env rest [] w2) as [[added w']|]; [|done].
    by rewrite app_assoc.
Qed.

(** The account loop over a concatenation is the loop over the first list
    followed by the loop over the second. *)
Lemma collect_accounts_app l1 l2 :
  ∀ posts w,
    collect_accounts fuel env (l1 ++ l2) posts w
    = match collect_accounts fuel env l1 posts w with
      | None => None
      | Some (posts1, w1) => collect_accounts fuel env l2 posts1 w1
      end.
Proof.
  induction l1 as [|acct rest IH]; intros posts w; [done|].
  cbn [app collect_accounts].
  destruct (_fetch_author_feed fuel env acct 10 w) as [[[j|e] w1]|]; [|apply IH|done].
  destruct (collect_account env acct j posts w1) as [p1 w2]. apply IH.
Qed.

(** The whole account loop, started with no rows: the state keeps its frame,
    the events are requests, sleeps and log lines, every account is
    requested, and no added row has a known id. *)
Lemma collect_accounts_effect accounts :
  ∀ w added w',
    collect_accounts fuel env accounts [] w = Some (added, w') →
    frame w w'
    ∧ (∃ evs, emits w w' evs ∧ quiet evs ∧ ∀ b, b ∈ accounts → EvGetFeed b 10 ∈ evs)
    ∧ Forall (λ r, raw_uuid r ∉ existing_uuids w) added.
Proof.
  induction accounts as [|acct rest IH]; intros w added w' H; cbn [collect_accounts] in H.
  - injection H as <- <-. split; [done|]. split; [|constructor].
    exists []. split; [done|]. split; [constructor|]. intros b Hb. by apply elem_of_nil in Hb.
  - unfold _fetch_author_feed in H.
    destruct (fetch_loop fuel env acct 10 0 w) as [[r w1]|] eqn:Hf; [|discriminate].
    pose proof (fetch_loop_frame _ _ _ _ _ _ _ _ Hf) as [Hx1 Hd1].
    apply fetch_loop_effect in Hf as (evs1 & Hem1 & Hin1 & Hq1 & _).
    destruct r as [j|e].
    + rewrite (collect_account_acc acct j [] w1) in H. cbn [app] in H.
      destruct (collect_account_effect acct j w1) as (ev & Hev & Hfr & Hadd).
      destruct (collect_account env acct j [] w1) as [p1 w2]. cbn [fst snd] in *. subst w2.
      rewrite collect_accounts_acc in H.
      destruct (collect_accounts fuel env rest [] (ev w1)) as [[added' w'']|] eqn:Hrest;
        [|discriminate].
      injection H as <- <-.
      apply IH in Hrest as ((Hx2 & Hd2) & (evs2 & Hem2 & Hq2 & Hin2) & Hadd2).
      destruct (Hfr w1) as ((Hx3 & Hd3) & e3 & Hem3 & He3).
      split; [split; congruence|]. split.
      * exists (evs2 ++ [e3] ++ evs1). split.
        { unfold emits in *. rewrite Hem2, Hem3, Hem1. by rewrite <- !app_assoc. }
        split.
        { unfold quiet in *. rewrite !Forall_app. repeat split; try done.
          by repeat constructor. }
        intros b [->|Hb]%elem_of_cons; [rewrite !elem_of_app; auto|].
        apply elem_of_app. left. by apply Hin2.
      * apply Forall_app. split.
        { eapply Forall_impl; [exact Hadd|]. intros r [Hr _]. by rewrite <- Hx1. }
        eapply Forall_impl; [exact Hadd2|]. intros r Hr. cbn beta in Hr.
        by rewrite <- Hx1, <- Hx3.
    + apply IH in H as ((Hx2 & Hd2) & (evs2 & Hem2 & Hq2 & Hin2) & Hadd2).
      cbn in Hx2, Hd2.
      split; [split; congruence|]. split.
      * exists (evs2 ++ [EvLog ERROR (ErrorFetching acct e)] ++ evs1). split.
        { unfold emits in *. rewrite Hem2. cbn. rewrite Hem1. by rewrite <- !app_assoc. }
        split.
        { unfold quiet in *. rewrite !Forall_app. repeat split; try done.
          by repeat constructor. }
        intros b [->|Hb]%elem_of_cons; [rewrite !elem_of_app; auto|].
        apply elem_of_app. left. by apply Hin2.
      * eapply Forall_impl; [exact Hadd2|]. intros r Hr. cbn in Hr. by rewrite <- Hx1.
Qed.

(** The account loop returns as soon as every fetch does. *)
Lemma collect_accounts_returns accounts :
  (∀ b, b ∈ accounts → ∀ w, is_Some (_fetch_author_feed fuel env b 10 w)) →
  ∀ posts w, is_Some (collect_accounts fuel env accounts posts w).
Proof.
  induction accounts as [|acct rest IH]; intros Hfetch posts w; cbn [collect_accounts];
    [by eexists|].
  destruct (Hfetch acct ltac:(set_solver) w) as [[[j|e] w1] ->].
  - destruct (collect_account env acct j posts w1) as [p1 w2].
    apply IH. intros b Hb. apply Hfetch. set_solver.
  - apply IH. intros b Hb. apply Hfetch. set_solver.
Qed.

(** The loop seen from a later state in which every id it added is known:
    the same fetches happen and nothing is added. *)
Lemma collect_accounts_known accounts :
  ∀ w added w' v,
    collect_accounts fuel env accounts [] w = Some (added, w') →
    existing_uuids w ⊆ existing_uuids v →
    (∀ r, r ∈ added → raw_uuid r ∈ existing_uuids v) →
    (∀ actor attempt status_code items p,
       answer (feed_exchange env actor 10 attempt)
       = Response status_code (JsonText (JsonObject (Some items))) →
       IllShaped p ∈ items →
       item_uuid p ∈ existing_uuids v → item_uuid p ∈ existing_uuids w) →
    ∃ v', collect_accounts fuel env accounts [] v = Some ([], v').
Proof.
  induction accounts as [|acct rest IH]; intros w added w' v H Hsub Hall Hill;
    cbn [collect_accounts] in *; [by eexists|].
  unfold _fetch_author_feed in *.
  destruct (fetch_loop fuel env acct 10 0 w) as [[r w1]|] eqn:Hf; [|discriminate].
  pose proof (fetch_loop_frame _ _ _ _ _ _ _ _ Hf) as [Hx1 _].
  assert (∀ j, r = Return j → ∃ attempt status_code,
            answer (feed_exchange env acct 10 attempt) = Response status_code (JsonText j))
    as Hsrc.
  { intros j ->. by eapply fetch_loop_source. }
  apply fetch_loop_effect in Hf as (evs1 & _ & _ & _ & Hv).
  destruct (Hv v) as (v1 & -> & _ & Hxv & _).
  destruct r as [j|e].
  - rewrite (collect_account_acc acct j [] w1) in H. cbn [app] in H.
    destruct (collect_account_effect acct j w1) as (ev & Hev & Hfr & _).
    destruct (collect_account env acct j [] w1) as [p1 w2] eqn:Hacc.
    cbn [fst snd] in *. subst w2.
    rewrite collect_accounts_acc in H.
    destruct (collect_accounts fuel env rest [] (ev w1)) as [[added' w'']|] eqn:Hrest;
      [|discriminate].
    injection H as <- <-.
    destruct (Hfr w1) as ((Hx3 & _) & _).
    assert (∃ v2, collect_account env acct j [] v1 = ([], v2)
                ∧ existing_uuids v2 = existing_uuids v) as (v2 & -> & Hxv2).
    { destruct j as [feed|]; cbn [collect_account] in *; [|by eexists].
      rewrite (collect_feed_known (existing_uuids w1) (existing_uuids v1) acct).
      - destruct (collect_feed env (existing_uuids w1) acct (default [] feed) [])
          as [? [?|]]; by eexists.
      - by rewrite Hx1, Hxv.
      - intros r Hr. rewrite Hxv. apply Hall. apply elem_of_app. left.
        destruct (collect_feed env (existing_uuids w1) acct (default [] feed) [])
          as [? [?|]]; by injection Hacc as <- _.
      - intros p Hp. rewrite Hx1, Hxv.
        destruct feed as [items|]; [|by apply elem_of_nil in Hp].
        destruct (Hsrc _ eq_refl) as (attempt & sc & Hans).
        by apply (Hill acct attempt sc items p). }
    eapply (IH _ _ _ v2 Hrest).
    + by rewrite Hx3, Hx1, Hxv2.
    + intros r Hr. rewrite Hxv2. apply Hall. apply elem_of_app. by right.
    + intros actor attempt sc items p Hans Hp. rewrite Hxv2, Hx3, Hx1.
      by apply (Hill actor attempt sc items p).
  - eapply (IH _ _ _ (logger ERROR (ErrorFetching acct e) v1) H).
    + cbn. by rewrite Hx1, Hxv.
    + intros r Hr. cbn. rewrite Hxv. by apply Hall.
    + intros actor attempt sc items p Hans Hp. cbn. rewrite Hxv, Hx1.
      by apply (Hill actor attempt sc items p).
Qed.

(** Every collected row carries the account it was fetched for. *)
Lemma collect_accounts_authors accounts :
  ∀ w added w',
    collect_accounts fuel env accounts [] w = Some (added, w') →
    Forall (λ x, raw_author x ∈ accounts) added.
Proof.
  induction accounts as [|acct rest IH]; intros w added w' H; cbn [collect_accounts] in H.
  - injection H as <- _. constructor.
  - destruct (_fetch_author_feed fuel env acct 10 w) as [[[j|e] w1]|]; [| |discriminate].
    + destruct (collect_account_effect acct j w1) as (_ & _ & _ & Hadd).
      destruct (collect_account env acct j [] w1) as [p1 w2]. cbn [fst] in Hadd.
      rewrite collect_accounts_acc in H.
      destruct (collect_accounts fuel env rest [] w2) as [[added' w'']|] eqn:Hrest;
        [|discriminate].
      injection H as <- _. apply Forall_app. split.
      * eapply Forall_impl; [exact Hadd|]. intros x [_ ->]. by left.
      * eapply Forall_impl; [exact (IH _ _ _ Hrest)|]. intros x Hx. by right.
    + eapply Forall_impl; [exact (IH _ _ _ H)|]. intros x Hx. by right.
Qed.

End Collect.

(** ** [drop_duplicates] *)

Lemma drop_duplicates_from_spec (df : list raw_row) :
  ∀ seen,
    NoDup (raw_uuid <$> drop_duplicates_from seen df)
    ∧ (∀ r, r ∈ drop_duplicates_from seen df → (raw_uuid r ∉ seen) ∧ r ∈ df)
    ∧ (∀ u, u ∈ raw_uuid <$> df → u ∈ seen ∨ u ∈ raw_uuid <$> drop_duplicates_from seen df).
Proof.
  induction df as [|r df IH]; intros seen; cbn [drop_duplicates_from].
  - split; [constructor|]. split; [by intros r ?%elem_of_nil|].
    by intros u ?%elem_of_nil.
  - case_bool_decide as Hin.
    + destruct (IH seen) as (Hnd & Hsub & Hall). split; [done|]. split.
      * intros r' Hr'. destruct (Hsub r' Hr'). split; [done|]. by apply elem_of_cons; right.
      * intros u [->|Hu]%elem_of_cons; [by left|by apply Hall].
    + destruct (IH (raw_uuid r :: seen)) as (Hnd & Hsub & Hall).
      cbn [fmap list_fmap]. split; [|split].
      * constructor; [|done]. intros (r' & Heq & Hr')%list_elem_of_fmap.
        destruct (Hsub r' Hr') as [Hn _]. apply Hn. rewrite Heq. by left.
      * intros r' [->|Hr']%elem_of_cons; [split; [done|by left]|].
        destruct (Hsub r' Hr') as [Hn ?]. split; [|by apply elem_of_cons; right].
        intros ?. apply Hn. by right.
      * intros u [->|Hu]%elem_of_cons; [right; by left|].
        destruct (Hall u Hu) as [[->|?]%elem_of_cons|?];
          [right; by left|by left|right; by right].
Qed.

(** A surviving row is the first row of the frame with its uuid, given that
    nothing seen before has that uuid. *)
Lemma drop_duplicates_from_first (df : list raw_row) :
  ∀ seen r,
    r ∈ drop_duplicates_from seen df →
    ∃ before after, df = before ++ r :: after
                  ∧ ∀ x, x ∈ before → raw_uuid x ≠ raw_uuid r.
Proof.
  induction df as [|r0 df IH]; intros seen r; cbn [drop_duplicates_from];
    [by intros ?%elem_of_nil|].
  case_bool_decide as Hin.
  - intros Hr. destruct (drop_duplicates_from_spec df seen) as (_ & Hsub & _).
    destruct (Hsub r Hr) as [Hn _].
    destruct (IH seen r Hr) as (before & after & -> & Hb).
    exists (r0 :: before), after. split; [done|].
    intros x [->|Hx]%elem_of_cons; [congruence|by apply Hb].
  - intros [->|Hr]%elem_of_cons.
    + exists [], df. split; [done|]. by intros x ?%elem_of_nil.
    + destruct (drop_duplicates_from_spec df (raw_uuid r0 :: seen)) as (_ & Hsub & _).
      destruct (Hsub r Hr) as [Hn _].
      destruct (IH _ r Hr) as (before & after & -> & Hb).
      exists (r0 :: before), after. split; [done|].
      intros x [->|Hx]%elem_of_cons; [|by apply Hb].
      intros Heq. apply Hn. rewrite Heq. by left.
Qed.

Lemma drop_duplicates_nil (df : list raw_row) :
  drop_duplicates df = [] → df = [].
Proof. unfold drop_duplicates. by destruct df. Qed.

Lemma not_isin_all (E : gset string) (df : list raw_row) :
  Forall (λ r, raw_uuid r ∉ E) df → not_isin E df = df.
Proof.
  unfold not_isin. induction 1 as [|r df Hr _ IH]; [done|].
  rewrite filter_cons_True by done. by rewrite IH.
Qed.

(** ** Enrichment *)

Lemma fetch_metadata_value env url w :
  (_fetch_metadata env url w).1 = metadata env url.
Proof. unfold _fetch_metadata, metadata. by destruct (fetch_metadata_try env url). Qed.

Lemma fetch_metadata_state env url w :
  (_fetch_metadata env url w).2
  = advance (rtt (page_exchange env url)) (record_event (EvGetPage url) w).
Proof. unfold _fetch_metadata. by destruct (fetch_metadata_try env url). Qed.

Lemma apply_fetch_metadata_spec env parse df :
  ∀ w,
    (apply_fetch_metadata env parse df w).1
    = (λ r, enrich_row parse r (metadata env (raw_external_url r))) <$> df
    ∧ frame w (apply_fetch_metadata env parse df w).2
    ∧ emits w (apply_fetch_metadata env parse df w).2
        (reverse (EvGetPage <$> (raw_external_url <$> df))).
Proof.
  induction df as [|r df IH]; intros w; cbn [apply_fetch_metadata].
  - by repeat split.
  - pose proof (fetch_metadata_value env (raw_external_url r) w) as Hv.
    pose proof (fetch_metadata_state env (raw_external_url r) w) as Hs.
    destruct (_fetch_metadata env (raw_external_url r) w) as [meta w1].
    cbn [fst snd] in Hv, Hs. subst meta w1.
    destruct (IH (advance (rtt (page_exchange env (raw_external_url r)))
                    (record_event (EvGetPage (raw_external_url r)) w)))
      as (Hrows & (Hx & Hd) & Hem).
    destruct (apply_fetch_metadata env parse df _) as [rows w2].
    cbn [fst snd] in *. split; [by rewrite Hrows|]. split; [by split|].
    unfold emits in *. rewrite Hem. cbn [fmap list_fmap].
    rewrite reverse_cons, <- app_assoc. reflexivity.
Qed.

Lemma enrich_dataframe_spec env df w :
  (_enrich_dataframe env df w).1 = enriched env df
  ∧ frame w (_enrich_dataframe env df w).2
  ∧ ∃ evs, emits w (_enrich_dataframe env df w).2 evs
         ∧ ∀ batch, EvToSql batch ∉ evs.
Proof.
  destruct df as [|r df].
  - split; [done|]. split; [done|]. exists []. split; [done|].
    by intros batch ?%elem_of_nil.
  - change (_enrich_dataframe env (r :: df) w) with
      (apply_fetch_metadata env (to_datetime env (raw_timestamp <$> r :: df)) (r :: df)
         (record_event (EvToDatetime (raw_timestamp <$> r :: df)) w)).
    generalize (r :: df). clear r df. intros rows.
    destruct (apply_fetch_metadata_spec env (to_datetime env (raw_timestamp <$> rows)) rows
                (record_event (EvToDatetime (raw_timestamp <$> rows)) w))
      as (Hrows & Hfr & Hem).
    split; [exact Hrows|]. split; [exact Hfr|].
    exists (reverse (EvGetPage <$> (raw_external_url <$> rows))
              ++ [EvToDatetime (raw_timestamp <$> rows)]). split.
    + unfold emits in *. rewrite Hem. cbn [record_event trace].
      by rewrite <- app_assoc.
    + intros batch [Hin|Hin]%elem_of_app.
      * apply elem_of_reverse, list_elem_of_fmap in Hin as (? & ? & _). discriminate.
      * apply elem_of_cons in Hin as [?|?%elem_of_nil]; [discriminate|done].
Qed.

Lemma enriched_uuid env df : uuid <$> enriched env df = raw_uuid <$> df.
Proof. unfold enriched. rewrite <- list_fmap_compose. reflexivity. Qed.

Lemma enriched_nil env df : enriched env df = [] → df = [].
Proof. unfold enriched. by destruct df. Qed.

(** ** The shape of one run *)

(** A run that ends went one of two ways: nothing was collected and it
    stopped after the log line, or it enriched the collected rows, all of them
    new, and handed them to [append_dataframe]. *)
Lemma run_cases fuel env accounts w r w' :
  run fuel env accounts w = Some (r, w') →
  ∃ posts w1,
    collect_accounts fuel env accounts []
      (set_existing_uuids (get_existing_uuids w) w) = Some (posts, w1)
    ∧ ((posts = [] ∧ r = Return tt ∧ w' = logger INFO NoPostsCollected w1)
       ∨ (posts ≠ [] ∧
          ∃ w3 evs,
            (r, w') = append_dataframe env (enriched env (drop_duplicates posts)) w3
            ∧ frame w1 w3 ∧ emits w1 w3 evs ∧ ∀ batch, EvToSql batch ∉ evs)).
Proof.
  unfold run, _collect_posts.
  destruct (collect_accounts fuel env accounts [] _) as [[posts w1]|] eqn:Hc; [|discriminate].
  intros H. exists posts, w1. split; [done|].
  apply collect_accounts_effect in Hc as ((Hx & Hd) & _ & Hnew).
  destruct (drop_duplicates posts) as [|r0 df] eqn:Hdd.
  - apply drop_duplicates_nil in Hdd. injection H as <- <-. by left.
  - right. split; [by intros ->|].
    rewrite <- Hdd in H |- *.
    rewrite not_isin_all in H.
    2:{ apply Forall_forall. intros x Hx'.
        destruct (drop_duplicates_from_spec posts []) as (_ & Hsub & _).
        destruct (Hsub x Hx') as [_ Hin]. rewrite Forall_forall in Hnew.
        rewrite Hx. by apply Hnew. }
    destruct (enrich_dataframe_spec env (drop_duplicates posts)
                (logger INFO (FoundNew (length (drop_duplicates posts))) w1))
      as (Hrows & Hfr & evs & Hem & Hno).
    destruct (_enrich_dataframe env (drop_duplicates posts) _) as [rows w3].
    cbn [fst snd] in *. subst rows.
    destruct (enriched env (drop_duplicates posts)) as [|row rows] eqn:Hen.
    + apply enriched_nil in Hen. congruence.
    + injection H as H. exists w3, (evs ++ [EvLog INFO (FoundNew (length (drop_duplicates posts)))]).
      split; [done|]. split; [exact Hfr|]. split.
      * unfold emits in *. rewrite Hem. cbn. by rewrite <- app_assoc.
      * intros batch [Hin|Hin]%elem_of_app; [by eapply Hno|].
        apply elem_of_cons in Hin as [?|?%elem_of_nil]; [discriminate|done].
Qed.

Lemma append_dataframe_cases env batch w3 r w' :
  (r, w') = append_dataframe env batch w3 →
  trace w' = EvLog (if to_sql_fails env batch then ERROR else INFO)
               (if to_sql_fails env batch then DbInsertFailed else Inserted (length batch))
             :: EvToSql batch :: trace w3
  ∧ existing_uuids w' = existing_uuids w3
  ∧ ((to_sql_fails env batch = false ∧ r = Return tt ∧ db w' = Some (to_sql batch (db w3)))
     ∨ (to_sql_fails env batch = true ∧ r = Raise SQLAlchemyError ∧ db w' = db w3)).
Proof.
  unfold append_dataframe. destruct (to_sql_fails env batch); intros [= -> ->].
  - split; [done|]. split; [done|]. by right.
  - split; [done|]. split; [done|]. by left.
Qed.

(** The events of a run and what it leaves in the table. *)
Lemma run_trace fuel env accounts w r w' :
  run fuel env accounts w = Some (r, w') →
  ∃ posts w1 evs1,
    collect_accounts fuel env accounts []
      (set_existing_uuids (get_existing_uuids w) w) = Some (posts, w1)
    ∧ emits w w1 evs1 ∧ quiet evs1
    ∧ (∀ b, b ∈ accounts → EvGetFeed b 10 ∈ evs1)
    ∧ Forall (λ x, raw_uuid x ∉ get_existing_uuids w) posts
    ∧ ((posts = [] ∧ r = Return tt ∧ w' = logger INFO NoPostsCollected w1 ∧ db w' = db w)
       ∨ (posts ≠ [] ∧
          ∃ evs2 l m,
            emits w w' (EvLog l m :: EvToSql (enriched env (drop_duplicates posts))
                          :: evs2 ++ evs1)
            ∧ (∀ batch, EvToSql batch ∉ evs2)
            ∧ ((to_sql_fails env (enriched env (drop_duplicates posts)) = false
                ∧ r = Return tt
                ∧ db w' = Some (to_sql (enriched env (drop_duplicates posts)) (db w)))
               ∨ (to_sql_fails env (enriched env (drop_duplicates posts)) = true
                  ∧ r = Raise SQLAlchemyError ∧ db w' = db w
                  ∧ l = ERROR ∧ m = DbInsertFailed)))).
Proof.
  intros H. apply run_cases in H as (posts & w1 & Hc & Hcase).
  pose proof (collect_accounts_effect _ _ _ _ _ _ Hc)
    as ((Hx & Hd) & (evs1 & Hem1 & Hq1 & Hin1) & Hnew).
  cbn in Hx, Hd, Hnew. exists posts, w1, evs1.
  split; [done|]. split; [exact Hem1|]. split; [done|]. split; [done|]. split; [done|].
  destruct Hcase as [(-> & -> & ->)|(Hne & w3 & evs2 & Happ & (Hx3 & Hd3) & Hem3 & Hno)].
  - by left.
  - right. split; [done|].
    apply append_dataframe_cases in Happ as (Htr & _ & Hdb).
    eexists evs2, _, _. split.
    { unfold emits in *. rewrite Htr, Hem3, Hem1. cbn. by rewrite <- app_assoc. }
    split; [done|].
    destruct Hdb as [(Hf & -> & Hdb)|(Hf & -> & Hdb)].
    + left. rewrite Hf. repeat split; try done. by rewrite Hdb, Hd3, Hd.
    + right. rewrite Hf. repeat split; try done. by rewrite Hdb, Hd3, Hd.
Qed.

Lemma quiet_no_to_sql evs batch : quiet evs → EvToSql batch ∉ evs.
Proof.
  unfold quiet. rewrite Forall_forall. intros Hq Hin. by apply Hq in Hin.
Qed.

(** Every frame a run hands to [to_sql] has pairwise distinct uuids, none
    of them stored before the run. *)
Lemma run_batches fuel env accounts w r w' :
  run fuel env accounts w = Some (r, w') →
  ∃ evs, emits w w' evs
       ∧ ∀ batch, EvToSql batch ∈ evs →
           NoDup (uuid <$> batch)
           ∧ ∀ row, row ∈ batch → uuid row ∉ get_existing_uuids w.
Proof.
  intros H. apply run_trace in H
    as (posts & w1 & evs1 & _ & Hem1 & Hq1 & _ & Hnew & Hcase).
  destruct Hcase as [(-> & -> & -> & _)|(Hne & evs2 & l & m & Hem & Hno & _)].
  - exists (EvLog INFO NoPostsCollected :: evs1). split.
    + unfold emits in *. cbn. by rewrite Hem1.
    + intros batch [?|Hin]%elem_of_cons; [discriminate|].
      by apply quiet_no_to_sql in Hin.
  - eexists. split; [exact Hem|].
    intros batch [?|Hin]%elem_of_cons; [discriminate|].
    apply elem_of_cons in Hin as [[= ->]|Hin].
    + rewrite enriched_uuid.
      destruct (drop_duplicates_from_spec posts []) as (Hnd & Hsub & _).
      split; [exact Hnd|].
      intros row (x & -> & Hx)%list_elem_of_fmap. cbn.
      destruct (Hsub x Hx) as [_ Hin]. rewrite Forall_forall in Hnew. by apply Hnew.
    + apply elem_of_app in Hin as [Hin|Hin]; [by apply Hno in Hin|].
      by apply quiet_no_to_sql in Hin.
Qed.

(** * The claims *)

(** ** C1: posts without an id *)

(** C1 as stated fails.  The only post of the feed has no "uri" key; the
    store is empty; the run hands a row with the empty uuid to [to_sql], and
    the row is in the table afterwards. *)
Lemma empty_id_is_persisted :
  item_uuid (Some {| uri := None; post_record := None; post_author := None |}) = ""
  ∧ ∃ w' batch row,
      run 1 missing_uri_env ["A"] fresh = Some (Return tt, w')
      ∧ EvToSql batch ∈ trace w'
      ∧ row ∈ batch ∧ uuid row = ""
      ∧ to_table_row row ∈ default [] (db w').
Proof.
  split; [reflexivity|].
  eexists _, [_], _. split; [vm_compute; reflexivity|]. cbn.
  split; [apply elem_of_cons; right; apply elem_of_cons; by left|].
  split; [apply elem_of_cons; by left|].
  split; [reflexivity|]. apply elem_of_cons; by left.
Qed.

Lemma NoDup_fmap_filter_le {A B} `{EqDecision B} (f : A → B) (b : B) (l : list A) :
  NoDup (f <$> l) → (length (filter (λ x, f x = b) l) ≤ 1)%nat.
Proof.
  induction l as [|a l IH]; [cbn; lia|].
  cbn [fmap list_fmap]. intros [Hn Hnd]%NoDup_cons. specialize (IH Hnd).
  destruct (decide (f a = b)) as [Heq|Hne].
  - rewrite filter_cons_True by done.
    assert (filter (λ x, f x = b) l = []) as ->; [|cbn; lia].
    destruct (filter (λ x, f x = b) l) as [|x l'] eqn:Hf; [done|].
    assert (x ∈ filter (λ x, f x = b) l) as [Hfx Hx]%list_elem_of_filter
      by (rewrite Hf; by left).
    exfalso. apply Hn. rewrite Heq, <- Hfx. by apply list_elem_of_fmap_2.
  - by rewrite filter_cons_False.
Qed.

(** C1, amended.  A post whose "uri" is empty or missing is collected under the
    empty id like any other id.  When the empty id is already stored, no row
    of a frame handed to [to_sql] has it; in any case at most one row of
    such a frame has it; and when it is not yet stored, a post of the
    expected type without id is collected. *)
Theorem empty_id_batch (fuel : nat) (env : Env) (accounts : list string)
    (w : State) (r : result unit) (w' : State) :
  run fuel env accounts w = Some (r, w') →
  (∃ evs, emits w w' evs
        ∧ ∀ batch, EvToSql batch ∈ evs →
            ("" ∈ get_existing_uuids w → ∀ row, row ∈ batch → uuid row ≠ "")
            ∧ (length (filter (λ row, uuid row = "") batch) ≤ 1)%nat)
  ∧ ∀ acct p,
      uri (default empty_post p) = None ∨ uri (default empty_post p) = Some "" →
      item_type p = Some "app.bsky.feed.post" →
      "" ∉ get_existing_uuids w →
      ∃ x, collect_item env (get_existing_uuids w) acct p = Some x ∧ raw_uuid x = "".
Proof.
  intros H. split.
  - apply run_batches in H as (evs & Hem & Hb). exists evs. split; [done|].
    intros batch Hin. destruct (Hb batch Hin) as [Hnd Hnew]. split.
    + intros Hk row Hrow Heq. apply (Hnew row Hrow). by rewrite Heq.
    + by apply NoDup_fmap_filter_le.
  - intros acct p Huri Ht Hn.
    assert (item_uuid p = "") as Hu.
    { unfold item_uuid. by destruct Huri as [-> | ->]. }
    destruct (collect_item_new env (get_existing_uuids w) acct p Ht) as (x & Hx & Hux & _).
    + by rewrite Hu.
    + exists x. split; [done|]. by rewrite Hux.
Qed.

(** An instance of C1 as amended: the empty id is stored, the feed has a post
    without id and the post p1; the one frame appended holds p1 only. *)
Lemma empty_id_batch_witness :
  "" ∈ get_existing_uuids stored_empty_id
  ∧ ∃ w' evs batch,
      run 1 mixed_uri_env ["A"] stored_empty_id = Some (Return tt, w')
      ∧ emits stored_empty_id w' evs
      ∧ to_sql_calls (trace w') = [batch]
      ∧ uuid <$> batch = ["p1"]
      ∧ (EvToSql batch ∈ evs → ∀ row, row ∈ batch → uuid row ≠ "").
Proof.
  assert ("" ∈ get_existing_uuids stored_empty_id) as Hstored
    by (vm_compute; set_solver).
  split; [exact Hstored|].
  destruct (empty_id_batch 1 mixed_uri_env ["A"] stored_empty_id (Return tt) _
              ltac:(vm_compute; reflexivity)) as [(evs & Hem & Hb) _].
  eexists _, evs, _. split; [vm_compute; reflexivity|]. split; [exact Hem|].
  split; [reflexivity|]. split; [reflexivity|].
  intros Hin. by apply (Hb _ Hin).
Defined.

(** ** C5: nothing collected *)

(** A run whose deduplicated frame is empty stops after one log line. *)
Lemma run_no_posts fuel env accounts w w1 :
  _collect_posts fuel env accounts (set_existing_uuids (get_existing_uuids w) w)
    = Some ([], w1) →
  run fuel env accounts w = Some (Return tt, logger INFO NoPostsCollected w1)
  ∧ frame (set_existing_uuids (get_existing_uuids w) w) w1
  ∧ ∃ evs, emits w (logger INFO NoPostsCollected w1) evs ∧ quiet evs.
Proof.
  intros Hc. assert (run fuel env accounts w
                     = Some (Return tt, logger INFO NoPostsCollected w1)) as Hrun.
  { unfold run. by rewrite Hc. }
  split; [exact Hrun|].
  unfold _collect_posts in Hc.
  destruct (collect_accounts fuel env accounts [] _) as [[posts w1']|] eqn:Hacc;
    [|discriminate].
  injection Hc as Hdd <-. apply drop_duplicates_nil in Hdd. subst posts.
  apply collect_accounts_effect in Hacc as (Hfr & (evs & Hem & Hq & _) & _).
  split; [exact Hfr|].
  exists (EvLog INFO NoPostsCollected :: evs). split.
  - unfold emits in *. cbn. by rewrite Hem.
  - by constructor.
Qed.

(** C5. When the collected and deduplicated frame is empty, [run] returns
    normally right after the "No posts collected." line: the table is
    untouched and the run made no page request, no timestamp parse and no
    append. *)
Theorem run_empty_collection (fuel : nat) (env : Env) (accounts : list string)
    (w w1 : State) :
  _collect_posts fuel env accounts (set_existing_uuids (get_existing_uuids w) w)
    = Some ([], w1) →
  run fuel env accounts w = Some (Return tt, logger INFO NoPostsCollected w1)
  ∧ db (logger INFO NoPostsCollected w1) = db w
  ∧ ∃ evs, emits w (logger INFO NoPostsCollected w1) evs
         ∧ quiet evs ∧ to_sql_calls evs = [].
Proof.
  intros Hc. destruct (run_no_posts fuel env accounts w w1 Hc)
    as (Hrun & (_ & Hd) & evs & Hem & Hq).
  split; [exact Hrun|]. split; [exact Hd|].
  exists evs. split; [exact Hem|]. split; [exact Hq|].
  clear Hem. unfold to_sql_calls, quiet in *.
  induction Hq as [|e evs' He _ IH]; [done|].
  destruct e; try discriminate He; exact IH.
Qed.

(** The first case C5 names: every account's fetch raises. *)
Lemma collect_posts_all_fail fuel env accounts :
  (∀ b, b ∈ accounts → ∀ v, ∃ e v', _fetch_author_feed fuel env b 10 v = Some (Raise e, v')) →
  ∀ w, ∃ w1, _collect_posts fuel env accounts w = Some ([], w1).
Proof.
  unfold _collect_posts.
  induction accounts as [|acct rest IH]; intros Hfail w; cbn [collect_accounts].
  - by eexists.
  - destruct (Hfail acct ltac:(by left) w) as (e & v' & ->).
    apply IH. intros b Hb. apply Hfail. by right.
Qed.

(** The second case C5 names: every collected id is already stored (and no
    entry that stopped a feed loop when it was collected has become known
    since). *)
Lemma collect_posts_all_known fuel env accounts w0 added w0' w :
  collect_accounts fuel env accounts [] w0 = Some (added, w0') →
  existing_uuids w0 ⊆ existing_uuids w →
  (∀ x, x ∈ added → raw_uuid x ∈ existing_uuids w) →
  (∀ actor attempt status_code items p,
     answer (feed_exchange env actor 10 attempt)
     = Response status_code (JsonText (JsonObject (Some items))) →
     IllShaped p ∈ items →
     item_uuid p ∈ existing_uuids w → item_uuid p ∈ existing_uuids w0) →
  ∃ w1, _collect_posts fuel env accounts w = Some ([], w1).
Proof.
  intros Hc Hsub Hall Hill. unfold _collect_posts.
  destruct (collect_accounts_known _ _ _ _ _ _ w Hc Hsub Hall Hill) as (v' & ->).
  by eexists.
Qed.

(** An instance of C5: the only account answers 404. *)
Lemma run_empty_collection_witness :
  ∃ w1, run 1 scenario_env ["C"] fresh = Some (Return tt, logger INFO NoPostsCollected w1)
      ∧ db (logger INFO NoPostsCollected w1) = db fresh.
Proof.
  eexists.
  destruct (run_empty_collection 1 scenario_env ["C"] fresh _
              ltac:(vm_compute; reflexivity)) as (Hrun & Hdb & _).
  split; [exact Hrun | exact Hdb].
Defined.

(** ** C2: running twice *)

(** The feeds of the reference scenario hold no ill-shaped entry. *)
Lemma scenario_no_ill_shaped (w w1 : State) : ill_shaped_stay_unknown scenario_env w w1.
Proof.
  intros actor attempt sc items p Hans Hp. exfalso.
  unfold scenario_env, example_env, feeds_AB in Hans. cbn [feed_exchange] in Hans.
  destruct (String.eqb actor "A"); [|destruct (String.eqb actor "B")];
    [| |discriminate Hans];
    injection Hans as _ <-;
    repeat (apply elem_of_cons in Hp as [Hp|Hp]; [discriminate Hp|]);
    by apply elem_of_nil in Hp.
Qed.

Lemma get_existing_uuids_to_sql batch t u :
  u ∈ (list_to_set (omap col_uuid (to_sql batch t)) : gset string)
  ↔ u ∈ (list_to_set (omap col_uuid (default [] t)) : gset string) ∨ u ∈ uuid <$> batch.
Proof.
  unfold to_sql. rewrite omap_app, list_to_set_app, elem_of_union.
  assert (omap col_uuid (to_table_row <$> batch) = uuid <$> batch) as ->.
  { induction batch as [|x batch IH]; [done|]. cbn. by rewrite <- IH. }
  by rewrite (elem_of_list_to_set (C := gset string) u (uuid <$> batch)).
Qed.

(** The feed p1, p1 with a null text, p2 is not the same to two runs in
    succession: the first stops at the null text and stores p1; to the second
    the entry with the null text is a known id, is skipped before its text is
    read, and p2 is reached and appended. *)
Lemma second_run_appends_after_null_text :
  ∃ w1 w2,
    run 1 null_text_env ["A"] fresh = Some (Return tt, w1)
    ∧ stored_ids w1 = ["p1"]
    ∧ run 1 null_text_env ["A"] w1 = Some (Return tt, w2)
    ∧ stored_ids w2 = ["p1"; "p2"]
    ∧ db w2 ≠ db w1
    ∧ ¬ ill_shaped_stay_unknown null_text_env fresh w1.
Proof.
  eexists _, _. split; [vm_compute; reflexivity|]. split; [vm_compute; reflexivity|].
  split; [vm_compute; reflexivity|]. split; [vm_compute; reflexivity|].
  split; [vm_compute; discriminate|].
  intros Hill.
  assert ("p1" ∈ get_existing_uuids fresh) as Hin; [|by vm_compute in Hin].
  refine (Hill "A" 0%nat 200 _ (Some _) eq_refl _ _).
  - apply elem_of_cons. right. apply elem_of_cons. left. reflexivity.
  - vm_compute. set_solver.
Qed.

(** C2, amended.  Let a run end normally.  Then what it appended is one
    frame (maybe empty) of pairwise distinct ids, none stored before, holding
    every id the account loop collected; and whatever a second run against
    the same upstream hands to the table again has pairwise distinct ids,
    none stored by then: no id is ever stored twice.  When moreover no feed
    entry whose row cannot be built carries an id that the first run stored,
    the second run ends normally, leaves the table as it is, and makes no
    page request, no timestamp parse and no append: all it finds is already
    stored, because it starts by reading the stored ids again. *)
Theorem run_twice_idempotent (fuel : nat) (env : Env) (accounts : list string)
    (w w1 : State) :
  run fuel env accounts w = Some (Return tt, w1) →
  (∃ posts wc batch,
      collect_accounts fuel env accounts []
        (set_existing_uuids (get_existing_uuids w) w) = Some (posts, wc)
      ∧ default [] (db w1) = default [] (db w) ++ (to_table_row <$> batch)
      ∧ NoDup (uuid <$> batch)
      ∧ (∀ row, row ∈ batch → uuid row ∉ get_existing_uuids w)
      ∧ (∀ u, u ∈ raw_uuid <$> posts ↔ u ∈ uuid <$> batch))
  ∧ (∀ r2 w2,
      run fuel env accounts w1 = Some (r2, w2) →
      ∃ evs, emits w1 w2 evs
           ∧ ∀ batch, EvToSql batch ∈ evs →
               NoDup (uuid <$> batch)
               ∧ ∀ row, row ∈ batch → uuid row ∉ get_existing_uuids w1)
  ∧ (ill_shaped_stay_unknown env w w1 →
     ∃ w2 evs,
       run fuel env accounts w1 = Some (Return tt, w2)
       ∧ existing_uuids w2 = get_existing_uuids w1
       ∧ db w2 = db w1
       ∧ emits w1 w2 evs ∧ quiet evs).
Proof.
  intros H. apply run_trace in H
    as (posts & wc & evs1 & Hc & Hem1 & Hq1 & _ & Hnew & Hcase).
  destruct (drop_duplicates_from_spec posts []) as (Hnd & Hsub & Hall).
  assert (∃ batch,
             default [] (db w1) = default [] (db w) ++ (to_table_row <$> batch)
             ∧ NoDup (uuid <$> batch)
             ∧ (∀ row, row ∈ batch → uuid row ∉ get_existing_uuids w)
             ∧ (∀ u, u ∈ raw_uuid <$> posts ↔ u ∈ uuid <$> batch)
             ∧ (∀ u, u ∈ get_existing_uuids w1
                     ↔ u ∈ get_existing_uuids w ∨ u ∈ uuid <$> batch))
    as (batch & Hdb & Hndb & Hfresh & Hids & Hex).
  { destruct Hcase as [(-> & _ & -> & Hd)|(Hne & evs2 & l & m & _ & _ & Hres)].
    - exists []. cbn [logger record_event db] in *.
      split; [by rewrite Hd, app_nil_r|]. split; [constructor|].
      split; [by intros row ?%elem_of_nil|]. split; [done|].
      intros u. unfold get_existing_uuids. cbn [logger record_event db]. rewrite Hd.
      split; [by left|]. by intros [?|?%elem_of_nil].
    - destruct Hres as [(_ & _ & Hd)|(_ & [=] & _)].
      exists (enriched env (drop_duplicates posts)). rewrite Hd, enriched_uuid.
      split; [done|]. split; [exact Hnd|]. split.
      { intros row (x & -> & Hx)%list_elem_of_fmap. cbn.
        destruct (Hsub x Hx) as [_ Hin]. rewrite Forall_forall in Hnew. by apply Hnew. }
      split.
      { intros u. split.
        - intros Hu. destruct (Hall u Hu) as [?%elem_of_nil|?]; done.
        - intros (x & -> & Hx)%list_elem_of_fmap. apply list_elem_of_fmap_2.
          by destruct (Hsub x Hx). }
      intros u. unfold get_existing_uuids at 1. rewrite Hd.
      rewrite get_existing_uuids_to_sql, enriched_uuid.
      unfold get_existing_uuids. destruct (db w); cbn [default]; [done|].
      done. }
  split; [by exists posts, wc, batch|].
  split; [intros r2 w2 Hrun2; exact (run_batches _ _ _ _ _ _ Hrun2)|].
  intros Hill.
  destruct (collect_posts_all_known fuel env accounts _ _ _
              (set_existing_uuids (get_existing_uuids w1) w1) Hc) as (v' & Hv').
  { intros u Hu. cbn in *. apply Hex. by left. }
  { intros x Hx. cbn. apply Hex. right. apply Hids. by apply list_elem_of_fmap_2. }
  { intros actor attempt sc items p Hans Hp. cbn. by apply (Hill actor attempt sc items p). }
  destruct (run_no_posts fuel env accounts w1 v' Hv')
    as (Hrun & (Hx & Hd2) & evs & Hem & Hq).
  exists (logger INFO NoPostsCollected v'), evs.
  split; [exact Hrun|]. by repeat split.
Qed.

(** An instance of C2: the reference scenario, run twice. *)
Lemma run_twice_idempotent_witness :
  ∃ w1 w2,
    run 1 scenario_env ["A"; "B"] fresh = Some (Return tt, w1)
    ∧ run 1 scenario_env ["A"; "B"] w1 = Some (Return tt, w2)
    ∧ db w2 = db w1
    ∧ length (default [] (db w1)) = 4%nat.
Proof.
  eexists.
  destruct (run_twice_idempotent 1 scenario_env ["A"; "B"] fresh _
              ltac:(vm_compute; reflexivity)) as (_ & _ & Hsecond).
  destruct (Hsecond (scenario_no_ill_shaped _ _)) as (w2 & evs & Hrun & _ & Hdb & _).
  exists w2. split; [vm_compute; reflexivity|]. split; [exact Hrun|].
  split; [exact Hdb|]. reflexivity.
Defined.

(** ** C3: one account fails *)

(** C3.  Let the loop have reached account [a] with [posts1] collected, and
    let the fetch for [a] raise [e].  Then the loop goes on with the accounts
    after [a], in their order, from the state in which the error is logged
    and with [posts1] intact; and when the later fetches return, the whole
    loop returns, the error line is in its trace, and every later account is
    requested after that line. *)
Theorem collect_posts_failure_isolation (fuel : nat) (env : Env)
    (before : list string) (a : string) (after : list string)
    (w : State) (posts1 : list raw_row) (w1 : State) (e : exception) (w2 : State) :
  collect_accounts fuel env before [] w = Some (posts1, w1) →
  _fetch_author_feed fuel env a 10 w1 = Some (Raise e, w2) →
  (∀ b, b ∈ after → ∀ v, is_Some (_fetch_author_feed fuel env b 10 v)) →
  collect_accounts fuel env (before ++ a :: after) [] w
    = collect_accounts fuel env after posts1 (logger ERROR (ErrorFetching a e) w2)
  ∧ ∃ posts2 w' evs,
      collect_accounts fuel env (before ++ a :: after) [] w = Some (posts1 ++ posts2, w')
      ∧ _collect_posts fuel env (before ++ a :: after) w
        = Some (drop_duplicates (posts1 ++ posts2), w')
      ∧ trace w' = evs ++ EvLog ERROR (ErrorFetching a e) :: trace w2
      ∧ ∀ b, b ∈ after → EvGetFeed b 10 ∈ evs.
Proof.
  intros Hbefore Hfetch Hafter.
  assert (collect_accounts fuel env (before ++ a :: after) [] w
          = collect_accounts fuel env after posts1 (logger ERROR (ErrorFetching a e) w2))
    as Heq.
  { rewrite collect_accounts_app, Hbefore. cbn [collect_accounts]. by rewrite Hfetch. }
  split; [exact Heq|].
  destruct (collect_accounts_returns fuel env after Hafter []
              (logger ERROR (ErrorFetching a e) w2)) as [[posts2 w'] Hrest].
  pose proof (collect_accounts_effect _ _ _ _ _ _ Hrest) as (_ & (evs & Hem & _ & Hin) & _).
  exists posts2, w', evs.
  assert (collect_accounts fuel env (before ++ a :: after) [] w
          = Some (posts1 ++ posts2, w')) as Hall.
  { by rewrite Heq, collect_accounts_acc, Hrest. }
  split; [exact Hall|]. split; [unfold _collect_posts; by rewrite Hall|].
  split; [exact Hem | exact Hin].
Qed.

(** An instance of C3: A answers after two rate limits, B answers 500, C
    answers. *)
Lemma collect_posts_failure_isolation_witness :
  ∃ posts w',
    _collect_posts 3 limited_env ["A"; "B"; "C"] fresh = Some (posts, w')
    ∧ raw_uuid <$> posts = ["p1"; "p9"]
    ∧ EvLog ERROR (ErrorFetching "B" (HTTPError 500)) ∈ trace w'
    ∧ EvGetFeed "C" 10 ∈ trace w'.
Proof.
  destruct (collect_posts_failure_isolation 3 limited_env ["A"] "B" ["C"] fresh _ _ _ _
              ltac:(vm_compute; reflexivity) ltac:(vm_compute; reflexivity))
    as (_ & posts2 & w' & evs & Hacc & Hcp & Htr & Hin).
  { intros b Hb v. apply list_elem_of_singleton in Hb as ->.
    unfold _fetch_author_feed. cbn. by eexists. }
  eexists _, w'. split; [exact Hcp|].
  assert (posts2 = match collect_accounts 3 limited_env ["A"; "B"; "C"] [] fresh with
                   | Some (_ :: l, _) => l
                   | _ => []
                   end) as ->.
  { change (["A"; "B"; "C"]) with (["A"] ++ "B" :: ["C"]). by rewrite Hacc. }
  split; [vm_compute; reflexivity|]. rewrite Htr. split.
  - apply elem_of_app. right. by left.
  - apply elem_of_app. left. apply Hin. by left.
Defined.

(** ** C7: first occurrence wins *)

(** C7.  [drop_duplicates] leaves exactly one row per id, the first one of the
    frame; the frame lists the rows of earlier accounts before those of later
    accounts; and in the reference scenario (A returns p1, p2, p3; B returns
    p3, p4; empty table) one frame of four rows is appended, p3 with author
    A. *)
Theorem drop_duplicates_first_wins :
  (∀ df,
     NoDup (raw_uuid <$> drop_duplicates df)
     ∧ (∀ u, u ∈ raw_uuid <$> df ↔ u ∈ raw_uuid <$> drop_duplicates df)
     ∧ (∀ r, r ∈ drop_duplicates df →
          ∃ earlier later, df = earlier ++ r :: later
                         ∧ ∀ x, x ∈ earlier → raw_uuid x ≠ raw_uuid r))
  ∧ (∀ fuel env l1 l2 w posts w',
       collect_accounts fuel env (l1 ++ l2) [] w = Some (posts, w') →
       ∃ posts1 w1 posts2,
         collect_accounts fuel env l1 [] w = Some (posts1, w1)
         ∧ collect_accounts fuel env l2 [] w1 = Some (posts2, w')
         ∧ posts = posts1 ++ posts2
         ∧ Forall (λ x, raw_author x ∈ l1) posts1
         ∧ Forall (λ x, raw_author x ∈ l2) posts2)
  ∧ ∃ w' batch,
      run 1 scenario_env ["A"; "B"] fresh = Some (Return tt, w')
      ∧ to_sql_calls (trace w') = [batch]
      ∧ (λ x, (uuid x, row_author x)) <$> batch
        = [("p1", "A"); ("p2", "A"); ("p3", "A"); ("p4", "B")]
      ∧ db w' = Some (to_table_row <$> batch).
Proof.
  split; [|split].
  - intros df. destruct (drop_duplicates_from_spec df []) as (Hnd & Hsub & Hall).
    split; [exact Hnd|]. split.
    + intros u. split.
      * intros Hu. by destruct (Hall u Hu) as [?%elem_of_nil|?].
      * intros (x & -> & Hx)%list_elem_of_fmap. apply list_elem_of_fmap_2.
        by destruct (Hsub x Hx).
    + intros r Hr. by apply (drop_duplicates_from_first df []).
  - intros fuel env l1 l2 w posts w' H. rewrite collect_accounts_app in H.
    destruct (collect_accounts fuel env l1 [] w) as [[posts1 w1]|] eqn:H1; [|discriminate].
    rewrite collect_accounts_acc in H.
    destruct (collect_accounts fuel env l2 [] w1) as [[posts2 w2]|] eqn:H2; [|discriminate].
    injection H as <- <-. exists posts1, w1, posts2.
    split; [done|]. split; [done|]. split; [done|].
    split; by eapply collect_accounts_authors.
  - eexists _, _. split; [vm_compute; reflexivity|].
    split; [reflexivity|]. split; reflexivity.
Qed.

(** ** C10: no table yet *)

Lemma run_returns fuel env accounts w :
  is_Some (collect_accounts fuel env accounts []
             (set_existing_uuids (get_existing_uuids w) w)) →
  is_Some (run fuel env accounts w).
Proof.
  intros [[posts w1] Hc]. unfold run, _collect_posts. rewrite Hc.
  destruct (drop_duplicates posts) as [|x df]; [by eexists|].
  destruct (_enrich_dataframe env _ _) as [[|row rows] w3]; by eexists.
Qed.

(** C10.  When the table does not exist, [get_existing_uuids] is the empty
    set (the branch that returns [set()] reads nothing), so the first run
    does not stop at the reload: every entry of the expected type is
    collected as new, under its own id, and the run returns whenever the
    account loop does. *)
Theorem get_existing_uuids_no_table (w : State) :
  db w = None →
  get_existing_uuids w = ∅
  ∧ (∀ env acct p,
       item_type p = Some "app.bsky.feed.post" →
       ∃ x, collect_item env (get_existing_uuids w) acct p = Some x
          ∧ raw_uuid x = item_uuid p)
  ∧ ∀ fuel env accounts,
      is_Some (collect_accounts fuel env accounts [] (set_existing_uuids ∅ w)) →
      is_Some (run fuel env accounts w).
Proof.
  intros Hdb.
  assert (get_existing_uuids w = ∅) as Hempty.
  { unfold get_existing_uuids. by rewrite Hdb. }
  split; [exact Hempty|]. split.
  - intros env acct p Ht. rewrite Hempty.
    destruct (collect_item_new env ∅ acct p Ht) as (x & Hx & Hu & _); [set_solver|].
    by exists x.
  - intros fuel env accounts Hc. apply run_returns. by rewrite Hempty.
Qed.

(** An instance of C10: the reference scenario on a store without table. *)
Lemma get_existing_uuids_no_table_witness :
  get_existing_uuids no_table = ∅
  ∧ ∃ w', run 1 scenario_env ["A"; "B"] no_table = Some (Return tt, w')
        ∧ length (default [] (db w')) = 4%nat.
Proof.
  destruct (get_existing_uuids_no_table no_table eq_refl) as (Hempty & _ & _).
  split; [exact Hempty|].
  eexists. split; [vm_compute; reflexivity|]. reflexivity.
Defined.

(** ** C8: metadata *)

(** C8 as stated fails on "missing title": the page has no title tag but has
    a description, and [_fetch_metadata] returns the description, not the
    pair of empty strings. *)
Lemma missing_title_keeps_description :
  answer (page_exchange untitled_env "http://x") = Response 200 "<html>"
  ∧ soup_title (BeautifulSoup untitled_env "<html>") = None
  ∧ (_fetch_metadata untitled_env "http://x" fresh).1 = ("", "about")
  ∧ (_fetch_metadata untitled_env "http://x" fresh).1 ≠ ("", "").
Proof. repeat split; try reflexivity. discriminate. Qed.

Lemma enriched_always_fails env df :
  (∀ url, ∃ e, fetch_metadata_try env url = Raise e) →
  Forall (λ row, page_title row = "" ∧ meta_description row = "") (enriched env df).
Proof.
  intros Hfail. unfold enriched. apply Forall_fmap, Forall_forall. intros x _.
  unfold metadata. cbn. by destruct (Hfail (raw_external_url x)) as [e ->].
Qed.

(** C8, amended.  [_fetch_metadata] returns a pair in every case.  When
    anything in its [try] block raises (the request fails, the status is an
    error, the title tag has no string) the pair is two empty strings.  When
    nothing raises, a missing title tag gives an empty title and a missing
    description tag, or one without content, gives an empty description,
    each whatever the other field is.  And when every metadata fetch fails,
    a run that collected something still hands every surviving row to
    [to_sql], with empty [page_title] and [meta_description], and they are
    stored when the append succeeds. *)
Theorem fetch_metadata_absorbs (env : Env) :
  (∀ url w,
     (∀ e, fetch_metadata_try env url = Raise e →
           (_fetch_metadata env url w).1 = ("", ""))
     ∧ (answer (page_exchange env url) = TransportFailure →
        (_fetch_metadata env url w).1 = ("", ""))
     ∧ ∀ status_code r_text,
         answer (page_exchange env url) = Response status_code r_text →
         (raise_for_status status_code = true →
          (_fetch_metadata env url w).1 = ("", ""))
         ∧ (raise_for_status status_code = false →
            let soup := BeautifulSoup env r_text in
            (soup_title soup = Some None → (_fetch_metadata env url w).1 = ("", ""))
            ∧ (soup_title soup = None → (_fetch_metadata env url w).1.1 = "")
            ∧ (og_description soup = Some None → (_fetch_metadata env url w).1.2 = "")
            ∧ (og_description soup = None →
               name_description soup = None ∨ name_description soup = Some None →
               (_fetch_metadata env url w).1.2 = "")))
  ∧ ((∀ url, ∃ e, fetch_metadata_try env url = Raise e) →
     ∀ fuel accounts w posts wc,
       collect_accounts fuel env accounts []
         (set_existing_uuids (get_existing_uuids w) w) = Some (posts, wc) →
       posts ≠ [] →
       ∃ r w' batch,
         run fuel env accounts w = Some (r, w')
         ∧ EvToSql batch ∈ trace w'
         ∧ uuid <$> batch = raw_uuid <$> drop_duplicates posts
         ∧ Forall (λ row, page_title row = "" ∧ meta_description row = "") batch
         ∧ (to_sql_fails env batch = false →
            r = Return tt ∧ db w' = Some (to_sql batch (db w)))).
Proof.
  split.
  - intros url w. rewrite fetch_metadata_value. unfold metadata, fetch_metadata_try.
    split; [by intros e ->|]. split; [by intros ->|].
    intros sc r_text ->. split; [by intros ->|]. intros ->. cbn zeta.
    split; [by intros ->|]. split; [by intros ->|].
    split.
    + intros ->. by destruct (soup_title _) as [[?|]|].
    + intros -> [-> | ->]; by destruct (soup_title _) as [[?|]|].
  - intros Hfail fuel accounts w posts wc Hc Hne.
    destruct (run_returns fuel env accounts w) as [[r w'] Hrun]; [by eexists|].
    exists r, w', (enriched env (drop_duplicates posts)).
    split; [exact Hrun|].
    apply run_trace in Hrun as (posts' & wc' & evs1 & Hc' & _ & _ & _ & _ & Hcase).
    rewrite Hc in Hc'. injection Hc' as <- <-.
    destruct Hcase as [(-> & _)|(_ & evs2 & l & m & Hem & _ & Hres)]; [done|].
    split; [rewrite Hem; apply elem_of_cons; right; by left|].
    split; [apply enriched_uuid|]. split; [by apply enriched_always_fails|].
    intros Hok. destruct Hres as [(_ & -> & Hd)|(Hf & _)]; [done|congruence].
Qed.

(** An instance of C8 as amended: no page can be reached. *)
Lemma fetch_metadata_absorbs_witness :
  ∃ w' batch,
    run 1 scenario_env ["A"; "B"] fresh = Some (Return tt, w')
    ∧ EvToSql batch ∈ trace w'
    ∧ length batch = 4%nat
    ∧ Forall (λ row, page_title row = "" ∧ meta_description row = "") batch.
Proof.
  destruct (proj2 (fetch_metadata_absorbs scenario_env)
              ltac:(intros url; by exists RequestException)
              1%nat ["A"; "B"] fresh _ _ ltac:(vm_compute; reflexivity)
              ltac:(discriminate))
    as (r & w' & batch & Hrun & Hin & Hu & Hempty & Hok).
  destruct (Hok eq_refl) as [-> _].
  exists w', batch. split; [exact Hrun|]. split; [exact Hin|]. split; [|exact Hempty].
  rewrite <- (length_fmap uuid), Hu, length_fmap. reflexivity.
Defined.

(** ** C4: a run that raises *)

(** C4 as stated fails.  The table refuses the append; the first run raises
    [SQLAlchemyError]; [run_forever], asked for three turns, has left the
    loop with that exception in the state the failed run ended in: no sleep,
    no second run. *)
Lemma run_forever_stops_on_db_failure :
  ∃ w1,
    run 1 failing_db_env ["A"] (logger INFO (StartingPerpetual 5) fresh)
      = Some (Raise SQLAlchemyError, w1)
    ∧ run_forever 3 1 failing_db_env ["A"] 5 fresh = Some (Propagated SQLAlchemyError w1)
    ∧ head (trace w1) = Some (EvLog ERROR DbInsertFailed)
    ∧ feed_requests (trace w1) = ["A"].
Proof.
  eexists. split; [vm_compute; reflexivity|].
  split; [vm_compute; reflexivity|]. split; reflexivity.
Qed.

Lemma loop_add fuel env accounts interval_minutes k :
  ∀ more w,
    loop (k + more) fuel env accounts interval_minutes w
    = match loop k fuel env accounts interval_minutes w with
      | Some (StillLooping wk) => loop more fuel env accounts interval_minutes wk
      | other => other
      end.
Proof.
  induction k as [|k IH]; intros more w; [done|].
  cbn [Nat.add loop].
  destruct (iteration fuel env accounts interval_minutes w) as [[[[]|e] w1]|]; [|done..].
  apply IH.
Qed.

(** The only exception a run lets out is the one [append_dataframe] logged
    and re-raised. *)
Lemma run_raises fuel env accounts w e w1 :
  run fuel env accounts w = Some (Raise e, w1) →
  e = SQLAlchemyError
  ∧ db w1 = db w
  ∧ ∃ batch rest, trace w1 = EvLog ERROR DbInsertFailed :: EvToSql batch :: rest.
Proof.
  intros H. apply run_trace in H as (posts & wc & evs1 & _ & _ & _ & _ & _ & Hcase).
  destruct Hcase as [(_ & [=] & _)|(_ & evs2 & l & m & Hem & _ & Hres)].
  destruct Hres as [(_ & [=] & _)|(_ & [= <-] & Hd & -> & ->)].
  split; [done|]. split; [done|]. rewrite Hem. by eexists _, _.
Qed.

(** C4, amended.  Let the loop have completed [k] turns and let the run of
    the next turn raise [e].  Then the failure was logged by
    [append_dataframe] ([e] is the storage error, the last trace entry is
    the error line, the table is unchanged), and the exception leaves
    [run_forever]: however many more turns are asked for, the loop has ended
    with [e] in the state the failed run left, without a sleep or a later
    run. *)
Theorem run_forever_propagates (fuel : nat) (env : Env) (accounts : list string)
    (interval_minutes : Z) (w : State) (k : nat) (wk : State)
    (e : exception) (w1 : State) :
  loop k fuel env accounts interval_minutes w = Some (StillLooping wk) →
  run fuel env accounts wk = Some (Raise e, w1) →
  (∀ more,
     loop (k + S more) fuel env accounts interval_minutes w = Some (Propagated e w1))
  ∧ e = SQLAlchemyError
  ∧ db w1 = db wk
  ∧ head (trace w1) = Some (EvLog ERROR DbInsertFailed).
Proof.
  intros Hk Hrun. split.
  - intros more. rewrite loop_add, Hk. cbn [loop]. unfold iteration. by rewrite Hrun.
  - apply run_raises in Hrun as (-> & Hd & batch & rest & ->). by repeat split.
Qed.

(** An instance of C4 as amended: the first run raises. *)
Lemma run_forever_propagates_witness :
  ∃ w1, loop 3 1 failing_db_env ["A"] 5 fresh = Some (Propagated SQLAlchemyError w1)
      ∧ head (trace w1) = Some (EvLog ERROR DbInsertFailed).
Proof.
  destruct (run_forever_propagates 1 failing_db_env ["A"] 5 fresh 0 fresh
              SQLAlchemyError _ eq_refl ltac:(vm_compute; reflexivity))
    as (Hloop & _ & _ & Hhead).
  eexists. split; [exact (Hloop 2%nat) | exact Hhead].
Defined.

(** ** C9: spacing of the turns *)

Lemma Qle_bool_false (x y : Q) : Qle_bool x y = false ↔ (y < x)%Q.
Proof.
  split.
  - intros H. apply Qnot_le_lt. intros Hle%Qle_bool_iff. congruence.
  - intros Hlt. destruct (Qle_bool x y) eqn:E; [|done].
    apply Qle_bool_iff in E. by apply Qlt_not_le in Hlt.
Qed.

Lemma Qminus_rounds_difference : rounds_difference Qminus.
Proof. split; [intros x y Hle; lra | by intros x y n Hn _]. Qed.

(** C9.  Every turn of [run_forever] whose run returns is completed: it
    sleeps [to_sleep] seconds when this is positive and does not sleep
    otherwise, so that the clock advances by [max 0 to_sleep] between the end
    of the run and the start of the next turn, where [to_sleep] is the
    interval less the elapsed time, as the program computes them.  When the
    measured duration of the run is 20 seconds and the interval 1 minute, the
    sleep is 40 seconds and the next turn starts more than 40 seconds after
    this one started; and a run measured to outlast the interval is followed
    at once by the next turn. *)
Theorem iteration_spacing (fuel : nat) (env : Env) (accounts : list string)
    (interval_minutes : Z) (w w1 : State) :
  run fuel env accounts w = Some (Return tt, w1) →
  ∃ w2,
    iteration fuel env accounts interval_minutes w = Some (Return tt, w2)
    ∧ loop 1 fuel env accounts interval_minutes w = Some (StillLooping w2)
    ∧ (∀ w0, w = logger INFO (StartingPerpetual interval_minutes) w0 →
         run_forever 1 fuel env accounts interval_minutes w0 = Some (StillLooping w2))
    ∧ (∀ n v, loop n fuel env accounts interval_minutes v = Some (StillLooping w) →
         loop (S n) fuel env accounts interval_minutes v = Some (StillLooping w2))
    ∧ (∀ turns, loop (S turns) fuel env accounts interval_minutes w
                = loop turns fuel env accounts interval_minutes w2)
    ∧ (clock w2 - clock w1 == Qmax 0 (to_sleep env interval_minutes w w1))%Q
    ∧ ((0 < to_sleep env interval_minutes w w1)%Q →
       trace w2 = EvSleep (to_sleep env interval_minutes w w1)
                  :: EvLog DEBUG (Sleeping (to_sleep env interval_minutes w w1)) :: trace w1)
    ∧ ((to_sleep env interval_minutes w w1 <= 0)%Q → w2 = w1)
    ∧ (rounds_difference (float_sub env) →
       (interval_minutes = 1 → (elapsed env w w1 == 20)%Q →
          (to_sleep env interval_minutes w w1 == 40)%Q
          ∧ (clock w2 == clock w1 + 40)%Q
          ∧ (clock w + 40 < clock w2)%Q)
       ∧ ((inject_Z (interval_minutes * 60) <= elapsed env w w1)%Q → w2 = w1)).
Proof.
  intros Hrun.
  assert (∃ w2,
    iteration fuel env accounts interval_minutes w = Some (Return tt, w2)
    ∧ (clock w2 - clock w1 == Qmax 0 (to_sleep env interval_minutes w w1))%Q
    ∧ ((0 < to_sleep env interval_minutes w w1)%Q →
       trace w2 = EvSleep (to_sleep env interval_minutes w w1)
                  :: EvLog DEBUG (Sleeping (to_sleep env interval_minutes w w1)) :: trace w1)
    ∧ ((to_sleep env interval_minutes w w1 <= 0)%Q → w2 = w1))
    as (w2 & Hit & Hclock & Hpos & Hneg).
  { unfold iteration, to_sleep, elapsed. rewrite Hrun.
    set (ts := float_sub env (inject_Z (interval_minutes * 60))
                 (float_sub env (clock w1) (clock w))).
    destruct (Qle_bool ts 0) eqn:Hle; cbn [negb].
    - apply Qle_bool_iff in Hle. exists w1. split; [done|].
      split; [rewrite (Q.max_l 0 ts Hle); lra|].
      split; [intros Hpos; lra|done].
    - apply Qle_bool_false in Hle. eexists. split; [reflexivity|].
      cbn [time_sleep logger advance record_event clock trace].
      split; [rewrite (Q.max_r 0 ts (Qlt_le_weak _ _ Hle)); lra|].
      split; [done|]. intros Hneg; lra. }
  assert (∀ turns, loop (S turns) fuel env accounts interval_minutes w
                   = loop turns fuel env accounts interval_minutes w2) as Hturn.
  { intros turns. cbn [loop]. by rewrite Hit. }
  exists w2. split; [exact Hit|]. split; [exact (Hturn 0%nat)|].
  split; [intros w0 ->; exact (Hturn 0%nat)|].
  split.
  { intros n v Hn. replace (S n) with (n + 1)%nat by lia.
    rewrite loop_add, Hn. exact (Hturn 0%nat). }
  split; [exact Hturn|]. split; [exact Hclock|]. split; [exact Hpos|].
  split; [exact Hneg|].
  intros [Hsign Hexact]. split.
  - intros -> H20.
    assert (to_sleep env 1 w w1 == 40)%Q as H40.
    { unfold to_sleep. apply (Hexact _ _ 40); [|lia].
      change (inject_Z (1 * 60)) with 60%Q. change (inject_Z 40) with 40%Q. lra. }
    assert (clock w < clock w1)%Q as Hlt.
    { apply Qnot_le_lt. intros Hle. apply Hsign in Hle. unfold elapsed in H20. lra. }
    split; [exact H40|].
    assert (clock w2 == clock w1 + 40)%Q as Hc2.
    { assert (Qmax 0 (to_sleep env 1 w w1) == to_sleep env 1 w w1)%Q as Hmax
        by (apply Q.max_r; lra).
      lra. }
    split; [exact Hc2|lra].
  - intros Hlong. apply Hneg. unfold to_sleep. by apply Hsign.
Qed.

(** An instance of C9: a run measured at 20 seconds, a 1-minute interval, a
    40-second sleep. *)
Lemma iteration_spacing_witness :
  ∃ w1 w2,
    run 1 scenario_env ["A"; "B"; "A"; "C"; "C"] fresh = Some (Return tt, w1)
    ∧ loop 1 1 scenario_env ["A"; "B"; "A"; "C"; "C"] 1 fresh = Some (StillLooping w2)
    ∧ (elapsed scenario_env fresh w1 == 20)%Q
    ∧ (clock w2 == clock w1 + 40)%Q
    ∧ (clock fresh + 40 < clock w2)%Q.
Proof.
  destruct (iteration_spacing 1 scenario_env ["A"; "B"; "A"; "C"; "C"] 1 fresh _
              ltac:(vm_compute; reflexivity))
    as (w2 & _ & Hloop & _ & _ & _ & _ & _ & _ & Hfloat).
  destruct (Hfloat Qminus_rounds_difference) as [H20 _].
  destruct (H20 eq_refl ltac:(vm_compute; reflexivity)) as (_ & Hc2 & Hnext).
  eexists _, w2. split; [vm_compute; reflexivity|]. split; [exact Hloop|].
  split; [vm_compute; reflexivity|]. split; [exact Hc2 | exact Hnext].
Defined.

(** * Further properties of the pipeline *)

(** ** The table across runs *)

Lemma get_existing_uuids_stored_ids (w : State) :
  get_existing_uuids w = list_to_set (stored_ids w).
Proof. unfold get_existing_uuids, stored_ids. by destruct (db w). Qed.

Lemma omap_col_uuid_to_table_row (batch : list post_row) :
  omap col_uuid (to_table_row <$> batch) = uuid <$> batch.
Proof. induction batch as [|x batch IH]; [done|]. cbn. by rewrite IH. Qed.

(** What a run that ends has done to the table: it appended one frame,
    maybe empty, of new and pairwise distinct ids, each row attributed to a
    configured account. *)
Lemma run_table fuel env accts w r w' :
  run fuel env accts w = Some (r, w') →
  ∃ batch,
    default [] (db w') = default [] (db w) ++ (to_table_row <$> batch)
    ∧ NoDup (uuid <$> batch)
    ∧ (∀ row, row ∈ batch → uuid row ∉ get_existing_uuids w)
    ∧ (∀ row, row ∈ batch → row_author row ∈ accts)
    ∧ (r ≠ Return tt → batch = [] ∧ db w' = db w).
Proof.
  intros H. apply run_trace in H
    as (posts & wc & evs1 & Hc & _ & _ & _ & Hnew & Hcase).
  destruct Hcase as [(-> & -> & -> & Hd)|(Hne & evs2 & l & m & _ & _ & Hres)].
  - exists []. rewrite Hd, app_nil_r. split; [done|]. split; [constructor|].
    split; [by intros row ?%elem_of_nil|]. split; [by intros row ?%elem_of_nil|]. done.
  - destruct Hres as [(_ & -> & Hd)|(_ & -> & Hd & _)].
    + exists (enriched env (drop_duplicates posts)). rewrite Hd.
      destruct (drop_duplicates_from_spec posts []) as (Hnd & Hsub & _).
      split; [done|]. split; [by rewrite enriched_uuid|]. split; [|split; [|done]].
      * intros row (x & -> & Hx)%list_elem_of_fmap. cbn.
        destruct (Hsub x Hx) as [_ Hin]. rewrite Forall_forall in Hnew. by apply Hnew.
      * intros row (x & -> & Hx)%list_elem_of_fmap. cbn.
        destruct (Hsub x Hx) as [_ Hin].
        pose proof (collect_accounts_authors _ _ _ _ _ _ Hc) as Hauth.
        rewrite Forall_forall in Hauth. by apply Hauth.
    + exists []. rewrite Hd, app_nil_r. split; [done|]. split; [constructor|].
      split; [by intros row ?%elem_of_nil|]. split; [by intros row ?%elem_of_nil|]. done.
Qed.

Lemma iteration_run fuel env accts interval_minutes w r w2 :
  iteration fuel env accts interval_minutes w = Some (r, w2) →
  ∃ w1, run fuel env accts w = Some (r, w1)
      ∧ db w2 = db w1
      ∧ (r ≠ Return tt → w2 = w1)
      ∧ ∃ evs, emits w1 w2 evs ∧ quiet evs.
Proof.
  unfold iteration.
  destruct (run fuel env accts w) as [[[[]|e] w1]|]; [| |discriminate].
  - destruct (negb _); intros [= <- <-]; exists w1.
    + split; [done|]. split; [done|]. split; [done|].
      eexists [_; _]. split; [reflexivity|]. by repeat constructor.
    + split; [done|]. split; [done|]. split; [done|].
      exists []. split; [reflexivity|]. constructor.
  - intros [= <- <-]. exists w1. split; [done|]. split; [done|]. split; [done|].
    exists []. split; [reflexivity|]. constructor.
Qed.

Lemma run_keeps_ids_unique fuel env accts w r w' :
  run fuel env accts w = Some (r, w') →
  NoDup (stored_ids w) → NoDup (stored_ids w').
Proof.
  intros (batch & Hdb & Hnd & Hnew & _)%run_table Hold.
  unfold stored_ids in *. rewrite Hdb, omap_app, omap_col_uuid_to_table_row.
  apply NoDup_app. split; [done|]. split; [|done].
  intros u Hu (row & -> & Hrow)%list_elem_of_fmap.
  apply (Hnew row Hrow). rewrite get_existing_uuids_stored_ids.
  by apply elem_of_list_to_set.
Qed.

(** X1.  The scheduler keeps the stored ids unique: if no id is stored twice
    when [run_forever] starts, none is stored twice after any number of
    turns, whether the loop is still going or an exception has ended it. *)
Theorem run_forever_keeps_ids_unique (turns fuel : nat) (env : Env)
    (accts : list string) (interval_minutes : Z) (w : State) (s : loop_state) :
  NoDup (stored_ids w) →
  run_forever turns fuel env accts interval_minutes w = Some s →
  NoDup (stored_ids (loop_final s)).
Proof.
  unfold run_forever.
  assert (NoDup (stored_ids (logger INFO (StartingPerpetual interval_minutes) w))
          ↔ NoDup (stored_ids w)) as <- by done.
  generalize (logger INFO (StartingPerpetual interval_minutes) w). clear w.
  induction turns as [|turns IH]; intros w Hnd; cbn [loop].
  - by intros [= <-].
  - destruct (iteration fuel env accts interval_minutes w) as [[r w2]|] eqn:Hit;
      [|discriminate].
    apply iteration_run in Hit as (w1 & Hrun & Hd & _).
    assert (NoDup (stored_ids w2)) as Hnd2.
    { unfold stored_ids. rewrite Hd. by eapply run_keeps_ids_unique. }
    destruct r as [[]|e]; [by apply IH|]. by intros [= <-].
Qed.

(** An instance of X1: three turns of the reference scenario. *)
Lemma run_forever_keeps_ids_unique_witness :
  ∃ s, run_forever 3 1 scenario_env ["A"; "B"] 1 fresh = Some s
     ∧ stored_ids (loop_final s) = ["p1"; "p2"; "p3"; "p4"]
     ∧ NoDup (stored_ids (loop_final s)).
Proof.
  eexists. split; [vm_compute; reflexivity|]. split; [reflexivity|].
  apply (run_forever_keeps_ids_unique 3 1 scenario_env ["A"; "B"] 1 fresh).
  - constructor.
  - vm_compute; reflexivity.
Defined.

(** X2.  The scheduler only appends: after any number of turns the table
    starts with the rows it had when [run_forever] started, unchanged and in
    their order. *)
Theorem run_forever_append_only (turns fuel : nat) (env : Env)
    (accts : list string) (interval_minutes : Z) (w : State) (s : loop_state) :
  run_forever turns fuel env accts interval_minutes w = Some s →
  default [] (db w) `prefix_of` default [] (db (loop_final s)).
Proof.
  unfold run_forever.
  change (db w) with (db (logger INFO (StartingPerpetual interval_minutes) w)).
  generalize (logger INFO (StartingPerpetual interval_minutes) w). clear w.
  induction turns as [|turns IH]; intros w; cbn [loop].
  - by intros [= <-].
  - destruct (iteration fuel env accts interval_minutes w) as [[r w2]|] eqn:Hit;
      [|discriminate].
    apply iteration_run in Hit as (w1 & (batch & Hdb & _)%run_table & Hd & _).
    assert (default [] (db w) `prefix_of` default [] (db w2)) as Hpre.
    { rewrite Hd, Hdb. by apply prefix_app_r. }
    destruct r as [[]|e].
    + intros Hs. etrans; [exact Hpre|]. by apply IH.
    + by intros [= <-].
Qed.

(** An instance of X2: the stored row stays first. *)
Lemma run_forever_append_only_witness :
  ∃ s, run_forever 2 1 scenario_env ["A"] 1 stored_empty_id = Some s
     ∧ default [] (db stored_empty_id) `prefix_of` default [] (db (loop_final s))
     ∧ stored_ids (loop_final s) = [""; "p1"; "p2"; "p3"].
Proof.
  eexists. split; [vm_compute; reflexivity|]. split; [|reflexivity].
  apply (run_forever_append_only 2 1 scenario_env ["A"] 1 stored_empty_id).
  vm_compute; reflexivity.
Defined.

(** X3.  [append_dataframe] and [get_existing_uuids] fit together: after a
    successful append the stored ids are the ones stored before plus the ids
    of the frame, and the table exists; a failed append raises the storage
    error and leaves the table as it was. *)
Theorem append_then_get_existing_uuids (env : Env) (df : list post_row) (w : State) :
  (to_sql_fails env df = false →
   (append_dataframe env df w).1 = Return tt
   ∧ is_Some (db (append_dataframe env df w).2)
   ∧ get_existing_uuids (append_dataframe env df w).2
     = get_existing_uuids w ∪ list_to_set (uuid <$> df))
  ∧ (to_sql_fails env df = true →
     (append_dataframe env df w).1 = Raise SQLAlchemyError
     ∧ db (append_dataframe env df w).2 = db w
     ∧ get_existing_uuids (append_dataframe env df w).2 = get_existing_uuids w).
Proof.
  unfold append_dataframe. split; intros ->; cbn.
  - split; [done|]. split; [by eexists|].
    rewrite !get_existing_uuids_stored_ids. unfold stored_ids, to_sql. cbn.
    by rewrite omap_app, omap_col_uuid_to_table_row, list_to_set_app_L.
  - done.
Qed.

(** An instance of X3: appending to a store without table. *)
Lemma append_then_get_existing_uuids_witness :
  ∃ row, enriched scenario_env
           [{| raw_uuid := "p7"; raw_author := "A"; raw_display_name := "";
               raw_title := ""; raw_text := ""; raw_timestamp := "";
               raw_external_url := "" |}] = [row]
       ∧ get_existing_uuids (append_dataframe scenario_env [row] no_table).2
         = get_existing_uuids no_table ∪ list_to_set (uuid <$> [row]).
Proof.
  eexists. split; [reflexivity|].
  apply (proj1 (append_then_get_existing_uuids scenario_env _ no_table)).
  reflexivity.
Defined.

(** ** The loop against an unchanged upstream *)





(** ** The loop over one feed *)

Lemma passes_true env E acct p :
  passes E p = true → ∃ r, collect_item env E acct p = Some r ∧ raw_uuid r = item_uuid p.
Proof.
  unfold passes. intros [Ht Hn]%andb_prop.
  apply bool_decide_eq_true_1 in Ht. apply bool_decide_eq_true_1 in Hn.
  destruct (collect_item_new env E acct p Ht Hn) as (r & Hr & Hu & _). by exists r.
Qed.

Lemma passes_false env E acct p :
  passes E p = false → collect_item env E acct p = None.
Proof.
  unfold passes. intros H.
  destruct (decide (item_type p = Some "app.bsky.feed.post")) as [Ht|Ht];
    [|by apply collect_item_other_type].
  destruct (decide (item_uuid p ∈ E)) as [Hin|Hin]; [by apply collect_item_known|].
  by rewrite !bool_decide_eq_true_2 in H.
Qed.

Lemma collect_feed_omap env E acct feed :
  collect_feed env E acct feed []
  = (omap (collect_item env E acct) (entries_reached E feed),
     if existsb (raises_at E) feed then Some AttributeError else None).
Proof.
  induction feed as [|[p|p|] feed IH]; cbn [collect_feed entries_reached existsb raises_at app orb];
    [done| | |done].
  - cbn [omap list_omap]. destruct (collect_item env E acct p) as [r|]; [|exact IH].
    rewrite (collect_feed_acc env E acct feed [r]), IH. reflexivity.
  - destruct (passes E p) eqn:Hp; cbn [orb].
    + by destruct (passes_true env E acct p Hp) as (r & -> & _).
    + by rewrite (passes_false env E acct p Hp).
Qed.

(** A stretch of the feed on which the loop does not raise is gone through,
    and the loop goes on with the entries after it. *)
Lemma collect_feed_app env E acct good tail :
  existsb (raises_at E) good = false →
  ∀ posts, collect_feed env E acct (good ++ tail) posts
           = collect_feed env E acct tail (collect_feed env E acct good posts).1.
Proof.
  induction good as [|[p|p|] good IH]; cbn [existsb raises_at orb app collect_feed];
    intros Hgood posts; [done| | |discriminate].
  - destruct (collect_item env E acct p) as [r|]; by apply IH.
  - apply orb_false_elim in Hgood as [Hp Hgood].
    rewrite (passes_false env E acct p Hp). by apply IH.
Qed.

(** X6.  The loop over a feed is an order-preserving filter: the rows it
    adds are, in feed order, one per well-shaped entry that comes before the
    first entry at which the loop raises, has the type "app.bsky.feed.post"
    and carries an id not yet known; entries of another type, or without a
    record, add nothing.  The loop raises at an entry that is not an object
    (or whose post or record is not), and at an entry whose row cannot be
    built when that entry is of post type and its id is not yet known;
    otherwise the latter is skipped like any other entry. *)
Theorem collect_feed_filters (env : Env) (E : gset string) (acct : string)
    (feed : list feed_item) (posts : list raw_row) :
  (collect_feed env E acct feed posts).1
  = posts ++ omap (collect_item env E acct) (entries_reached E feed)
  ∧ raw_uuid <$> omap (collect_item env E acct) (entries_reached E feed)
    = item_uuid <$> filter (λ p, item_type p = Some "app.bsky.feed.post" ∧ item_uuid p ∉ E)
                      (entries_reached E feed)
  ∧ ((collect_feed env E acct feed posts).2 = None ↔ existsb (raises_at E) feed = false)
  ∧ ((collect_feed env E acct feed posts).2 = Some AttributeError
     ↔ existsb (raises_at E) feed = true).
Proof.
  rewrite collect_feed_acc, collect_feed_omap. cbn [fst snd].
  split; [done|]. split; [|by destruct (existsb (raises_at E) feed)].
  induction (entries_reached E feed) as [|p l IH]; [done|].
  cbn [omap list_omap].
  destruct (decide (item_type p = Some "app.bsky.feed.post" ∧ item_uuid p ∉ E))
    as [[Ht Hn]|Hno].
  - rewrite filter_cons_True by done.
    destruct (collect_item_new env E acct p Ht Hn) as (r & -> & Hu & _).
    cbn [fmap list_fmap]. by rewrite Hu, IH.
  - rewrite filter_cons_False by done.
    destruct (collect_item env E acct p) as [r|] eqn:Hr; [|exact IH].
    apply collect_item_Some in Hr as (Ht & Hu & Hn & _).
    exfalso. apply Hno. split; [done|]. by rewrite <- Hu.
Qed.

(** X7.  Where the account's [try] block ends.  After a stretch [good] of
    entries at which the loop does not raise: an entry that is not an object
    ends the block, and so does an entry whose row cannot be built when it is
    of post type with an id not yet known: the rows of [good] stay
    collected, the entries after it are not looked at, the error is logged
    and the 5-second pause is skipped.  An entry whose row cannot be built
    but which is of another type, or whose id is known, changes nothing: the
    block goes on as if the entry were not in the feed.  A feed without an
    entry at which the loop raises ends with the pause and no error line. *)
Theorem collect_account_malformed (env : Env) (acct : string)
    (good rest : list feed_item) (p : option post) (posts : list raw_row) (w : State) :
  existsb (raises_at (existing_uuids w)) good = false →
  collect_account env acct (JsonObject (Some (good ++ Malformed :: rest))) posts w
  = ((collect_feed env (existing_uuids w) acct good posts).1,
     logger ERROR (ErrorFetching acct AttributeError) w)
  ∧ (passes (existing_uuids w) p = true →
     collect_account env acct (JsonObject (Some (good ++ IllShaped p :: rest))) posts w
     = ((collect_feed env (existing_uuids w) acct good posts).1,
        logger ERROR (ErrorFetching acct AttributeError) w))
  ∧ (passes (existing_uuids w) p = false →
     collect_account env acct (JsonObject (Some (good ++ IllShaped p :: rest))) posts w
     = collect_account env acct (JsonObject (Some (good ++ rest))) posts w)
  ∧ collect_account env acct (JsonObject (Some good)) posts w
    = ((collect_feed env (existing_uuids w) acct good posts).1, time_sleep 5 w).
Proof.
  intros Hgood. cbn [collect_account default from_option id].
  rewrite !(collect_feed_app env _ acct good _ Hgood posts).
  cbn [collect_feed]. split; [done|]. split; [|split].
  - intros Hp. by destruct (passes_true env _ acct p Hp) as (r & -> & _).
  - intros Hp. by rewrite (passes_false env _ acct p Hp).
  - rewrite (collect_feed_acc env _ acct good posts), collect_feed_omap, Hgood. done.
Qed.

(** An instance of X7: p1, then p1 again with a null text, then p2, before
    and after p1 is stored. *)
Lemma collect_account_malformed_witness :
  ∃ row1 row2,
    collect_account null_text_env "A"
      (JsonObject (Some ([a_post (Some "p1")] ++ null_text (Some "p1") :: [a_post (Some "p2")])))
      [] fresh
    = ([row1], logger ERROR (ErrorFetching "A" AttributeError) fresh)
    ∧ raw_uuid row1 = "p1"
    ∧ collect_account null_text_env "A"
        (JsonObject (Some ([a_post (Some "p1")] ++ null_text (Some "p1") :: [a_post (Some "p2")])))
        [] (set_existing_uuids {[ "p1" ]} fresh)
      = ([row2], time_sleep 5 (set_existing_uuids {[ "p1" ]} fresh))
    ∧ raw_uuid row2 = "p2".
Proof.
  destruct (collect_account_malformed null_text_env "A" [a_post (Some "p1")]
              [a_post (Some "p2")] (null_text_post (Some "p1")) [] fresh eq_refl)
    as (_ & Hraise & _ & _).
  destruct (collect_account_malformed null_text_env "A" [a_post (Some "p1")]
              [a_post (Some "p2")] (null_text_post (Some "p1")) []
              (set_existing_uuids {[ "p1" ]} fresh) eq_refl)
    as (_ & _ & Hskip & _).
  eexists _, _. split; [|split; [|split]].
  - etransitivity; [exact (Hraise ltac:(vm_compute; reflexivity))|].
    vm_compute. reflexivity.
  - reflexivity.
  - etransitivity; [exact (Hskip ltac:(vm_compute; reflexivity))|].
    vm_compute. reflexivity.
  - reflexivity.
Defined.

(** ** One request per account *)

Lemma collect_accounts_no_rate_limit fuel env accts :
  (∀ b, b ∈ accts → is_429 (answer (feed_exchange env b 10 0)) = false) →
  ∀ posts w,
    ∃ posts' w' evs,
      collect_accounts (S fuel) env accts posts w = Some (posts', w')
      ∧ emits w w' evs
      ∧ feed_requests evs = reverse accts
      ∧ Forall (λ d, d = inject_Z 5) (sleeps_of evs)
      ∧ (length (sleeps_of evs) ≤ length accts)%nat.
Proof.
  induction accts as [|acct rest IH]; intros Hok posts w.
  - exists posts, w, []. split; [done|]. split; [done|]. split; [done|].
    split; [constructor|]. done.
  - assert (∃ r, _fetch_author_feed (S fuel) env acct 10 w
                 = Some (r, advance (rtt (feed_exchange env acct 10 0))
                              (record_event (EvGetFeed acct 10) w))) as [r Hf].
    { unfold _fetch_author_feed. cbn [fetch_loop].
      pose proof (Hok acct ltac:(by left)) as H0.
      destruct (answer (feed_exchange env acct 10 0)) as [|sc c]; [by eexists|].
      rewrite (not_429_decide sc c), H0. by eexists. }
    cbn [collect_accounts]. rewrite Hf.
    set (w1 := advance _ _).
    assert (∃ posts1 e1, (match r with
                          | Return j => collect_account env acct j posts w1
                          | Raise e => (posts, logger ERROR (ErrorFetching acct e) w1)
                          end) = (posts1, e1 w1)
                         ∧ ((e1 = time_sleep 5)
                            ∨ ∃ e, e1 = logger ERROR (ErrorFetching acct e)))
      as (posts1 & e1 & Hstep & He1).
    { destruct r as [[feed|]|e].
      - cbn [collect_account].
        destruct (collect_feed env _ acct (default [] feed) posts) as [p1 [e|]].
        + exists p1, (logger ERROR (ErrorFetching acct e)). split; [done|]. right. by eexists.
        + exists p1, (time_sleep 5). split; [done|]. by left.
      - exists posts, (logger ERROR (ErrorFetching acct AttributeError)).
        split; [done|]. right. by eexists.
      - exists posts, (logger ERROR (ErrorFetching acct e)). split; [done|]. right. by eexists. }
    destruct (IH ltac:(intros b Hb; apply Hok; by right) posts1 (e1 w1))
      as (posts' & w' & evs & Hc & Hem & Hreq & Hsl & Hlen).
    assert (collect_accounts (S fuel) env rest posts1 (e1 w1)
            = match r with
              | Return j =>
                let '(posts2, w2) := collect_account env acct j posts w1 in
                collect_accounts (S fuel) env rest posts2 w2
              | Raise e =>
                collect_accounts (S fuel) env rest posts
                  (logger ERROR (ErrorFetching acct e) w1)
              end) as Hsame.
    { destruct r as [j|e]; [by rewrite Hstep|].
      by injection Hstep as <- <-. }
    rewrite <- Hsame, Hc. exists posts', w'.
    destruct He1 as [->|[e ->]].
    + exists (evs ++ [EvSleep 5; EvGetFeed acct 10]). split; [done|]. split.
      { unfold emits in *. rewrite Hem. cbn. by rewrite <- app_assoc. }
      unfold feed_requests, sleeps_of in *. rewrite !omap_app. cbn [omap list_omap].
      rewrite Hreq, reverse_cons. split; [done|]. split.
      * apply Forall_app. split; [done|]. by repeat constructor.
      * rewrite length_app. cbn. lia.
    + exists (evs ++ [EvLog ERROR (ErrorFetching acct e); EvGetFeed acct 10]).
      split; [done|]. split.
      { unfold emits in *. rewrite Hem. cbn. by rewrite <- app_assoc. }
      unfold feed_requests, sleeps_of in *. rewrite !omap_app. cbn [omap list_omap].
      rewrite Hreq, reverse_cons, app_nil_r. split; [done|]. split; [done|].
      cbn. lia.
Qed.

(** X8.  Without rate limits the account loop asks the upstream once per
    configured account, in the configured order, whether the answers are
    feeds or errors; every pause it makes is the 5-second pause, at most one
    per account; and the loop, hence the run, returns. *)
Theorem collect_posts_one_request_each (fuel : nat) (env : Env)
    (accts : list string) (w : State) :
  (∀ b, b ∈ accts → is_429 (answer (feed_exchange env b 10 0)) = false) →
  ∃ df w' evs,
    _collect_posts (S fuel) env accts w = Some (df, w')
    ∧ emits w w' evs
    ∧ feed_requests evs = reverse accts
    ∧ Forall (λ d, d = inject_Z 5) (sleeps_of evs)
    ∧ (length (sleeps_of evs) ≤ length accts)%nat
    ∧ is_Some (run (S fuel) env accts w).
Proof.
  intros Hok.
  destruct (collect_accounts_no_rate_limit fuel env accts Hok [] w)
    as (posts & w' & evs & Hc & Hem & Hreq & Hsl & Hlen).
  exists (drop_duplicates posts), w', evs.
  split; [unfold _collect_posts; by rewrite Hc|]. split; [done|]. split; [done|].
  split; [done|]. split; [done|].
  apply run_returns.
  by destruct (collect_accounts_no_rate_limit fuel env accts Hok []
                 (set_existing_uuids (get_existing_uuids w) w)) as (? & ? & ? & -> & _).
Qed.

(** An instance of X8: A answers, C answers 404, B answers. *)
Lemma collect_posts_one_request_each_witness :
  ∃ df w' evs,
    _collect_posts 1 scenario_env ["A"; "C"; "B"] fresh = Some (df, w')
    ∧ emits fresh w' evs
    ∧ feed_requests evs = ["B"; "C"; "A"]
    ∧ length (sleeps_of evs) = 2%nat.
Proof.
  destruct (collect_posts_one_request_each 0 scenario_env ["A"; "C"; "B"] fresh)
    as (df & w' & evs & Hc & Hem & Hreq & _).
  - intros b Hb. apply elem_of_cons in Hb as [->|Hb]; [reflexivity|].
    apply elem_of_cons in Hb as [->|Hb]; [reflexivity|].
    apply list_elem_of_singleton in Hb as ->. reflexivity.
  - exists df, w', evs. split; [exact Hc|]. split; [exact Hem|]. split; [exact Hreq|].
    assert (trace w' = [EvSleep 5; EvGetFeed "B" 10;
                        EvLog ERROR (ErrorFetching "C" (HTTPError 404)); EvGetFeed "C" 10;
                        EvSleep 5; EvGetFeed "A" 10]) as Htr.
    { assert (Some (df, w') = _collect_posts 1 scenario_env ["A"; "C"; "B"] fresh) as Heq
        by (by rewrite Hc).
      vm_compute in Heq. by injection Heq as _ ->. }
    unfold emits in Hem. rewrite Htr in Hem. cbn in Hem. rewrite app_nil_r in Hem.
    by subst evs.
Defined.

(** ** Enrichment *)

(** X9.  On a page that was fetched and parsed, the description comes from
    the og:description tag whenever that tag has a content, whatever the
    name=description tag says, and from the name=description tag when there
    is no og:description tag; the title is the stripped title string. *)
Theorem fetch_metadata_prefers_og (env : Env) (url : string) (w : State)
    (status_code : Z) (r_text t : string) :
  answer (page_exchange env url) = Response status_code r_text →
  raise_for_status status_code = false →
  soup_title (BeautifulSoup env r_text) = Some (Some t) →
  (_fetch_metadata env url w).1.1 = strip env t
  ∧ (∀ c, og_description (BeautifulSoup env r_text) = Some (Some c) →
          (_fetch_metadata env url w).1.2 = strip env c)
  ∧ (∀ c, og_description (BeautifulSoup env r_text) = None →
          name_description (BeautifulSoup env r_text) = Some (Some c) →
          (_fetch_metadata env url w).1.2 = strip env c).
Proof.
  intros Hans Hok Ht. rewrite fetch_metadata_value.
  unfold metadata, fetch_metadata_try. rewrite Hans, Hok, Ht.
  split; [done|]. split; [by intros c ->|]. by intros c -> ->.
Qed.

(** An instance of X9. *)
Lemma fetch_metadata_prefers_og_witness :
  (_fetch_metadata both_tags_env "http://x" fresh).1 = ("Title", "from og").
Proof.
  destruct (fetch_metadata_prefers_og both_tags_env "http://x" fresh 200 "<html>" "Title"
              eq_refl eq_refl eq_refl) as (Ht & Hog & _).
  specialize (Hog "from og" eq_refl).
  destruct (_fetch_metadata both_tags_env "http://x" fresh).1 as [a b].
  cbn in Ht, Hog. by rewrite Ht, Hog.
Defined.

(** X10.  Enrichment changes no base field and neither the number nor the
    order of the rows; it requests one page per row, in row order, also for
    rows without link and for rows sharing a link; it leaves the table alone
    and hands nothing to [to_sql]. *)
Theorem enrich_dataframe_preserves (env : Env) (df : list raw_row) (w : State) :
  Forall2 (λ x row,
             uuid row = raw_uuid x ∧ row_author row = raw_author x
             ∧ display_name row = raw_display_name x ∧ title row = raw_title x
             ∧ text row = raw_text x ∧ external_url row = raw_external_url x)
    df (_enrich_dataframe env df w).1
  ∧ db (_enrich_dataframe env df w).2 = db w
  ∧ ∃ evs, emits w (_enrich_dataframe env df w).2 evs
         ∧ page_requests evs = reverse (raw_external_url <$> df)
         ∧ to_sql_calls evs = [].
Proof.
  destruct (enrich_dataframe_spec env df w) as (Hrows & (_ & Hd) & _).
  split; [|split; [exact Hd|]].
  - rewrite Hrows. unfold enriched.
    generalize (to_datetime env (raw_timestamp <$> df)). intros parse.
    clear Hrows Hd. induction df as [|x df IH]; [constructor|].
    constructor; [done|exact IH].
  - clear Hrows Hd. destruct df as [|x df]; [exists []; by repeat split|].
    change (_enrich_dataframe env (x :: df) w) with
      (apply_fetch_metadata env (to_datetime env (raw_timestamp <$> x :: df)) (x :: df)
         (record_event (EvToDatetime (raw_timestamp <$> x :: df)) w)).
    generalize (x :: df). clear x df. intros rows.
    destruct (apply_fetch_metadata_spec env (to_datetime env (raw_timestamp <$> rows)) rows
                (record_event (EvToDatetime (raw_timestamp <$> rows)) w))
      as (_ & _ & Hem).
    exists (reverse (EvGetPage <$> (raw_external_url <$> rows))
              ++ [EvToDatetime (raw_timestamp <$> rows)]).
    split; [unfold emits in *; rewrite Hem; cbn; by rewrite <- app_assoc|].
    unfold page_requests, to_sql_calls. rewrite !omap_app. cbn [omap list_omap].
    rewrite !app_nil_r. generalize (raw_external_url <$> rows). intros urls.
    rewrite <- !fmap_reverse. induction (reverse urls) as [|u l [IH1 IH2]]; [done|].
    cbn. by rewrite IH1, IH2.
Qed.

(** ** What a run leaves behind *)

(** X11.  Every row a run hands to [to_sql] is attributed to one of the
    configured accounts. *)
Theorem run_batch_authors (fuel : nat) (env : Env) (accts : list string)
    (w : State) (r : result unit) (w' : State) :
  run fuel env accts w = Some (r, w') →
  ∃ evs, emits w w' evs
       ∧ ∀ batch row, EvToSql batch ∈ evs → row ∈ batch → row_author row ∈ accts.
Proof.
  intros H. apply run_trace in H
    as (posts & w1 & evs1 & Hc & Hem1 & Hq1 & _ & _ & Hcase).
  destruct Hcase as [(-> & -> & -> & _)|(Hne & evs2 & l & m & Hem & Hno & _)].
  - exists (EvLog INFO NoPostsCollected :: evs1). split.
    + unfold emits in *. cbn. by rewrite Hem1.
    + intros batch row [?|Hin]%elem_of_cons; [discriminate|].
      by apply quiet_no_to_sql in Hin.
  - eexists. split; [exact Hem|].
    intros batch row [?|Hin]%elem_of_cons; [discriminate|].
    apply elem_of_cons in Hin as [[= ->]|Hin].
    + intros (x & -> & Hx)%list_elem_of_fmap. cbn.
      destruct (drop_duplicates_from_spec posts []) as (_ & Hsub & _).
      destruct (Hsub x Hx) as [_ Hin].
      pose proof (collect_accounts_authors _ _ _ _ _ _ Hc) as Hauth.
      rewrite Forall_forall in Hauth. by apply Hauth.
    + apply elem_of_app in Hin as [Hin|Hin]; [by apply Hno in Hin|].
      by apply quiet_no_to_sql in Hin.
Qed.

(** An instance of X11: the reference scenario. *)
Lemma run_batch_authors_witness :
  ∃ w' batch,
    run 1 scenario_env ["A"; "B"] fresh = Some (Return tt, w')
    ∧ to_sql_calls (trace w') = [batch]
    ∧ ∀ row, row ∈ batch → row_author row ∈ ["A"; "B"].
Proof.
  destruct (run_batch_authors 1 scenario_env ["A"; "B"] fresh (Return tt) _
              ltac:(vm_compute; reflexivity)) as (evs & Hem & Hauth).
  eexists _, _. split; [vm_compute; reflexivity|]. split; [reflexivity|].
  intros row Hrow. eapply Hauth; [|exact Hrow].
  unfold emits in Hem. cbn in Hem. rewrite app_nil_r in Hem. subst evs.
  apply elem_of_cons. right. by left.
Defined.



(** * Properties of startup *)

(** ** The accounts file *)

(** X13.  When accounts.txt exists, [_load_accounts_file] returns, in file
    order and as often as it occurs, the stripped text of every line that is
    not blank and does not begin with "#"; no account is empty.  The "#"
    test looks at the raw line, so a comment that is indented counts as an
    account. *)
Theorem load_accounts_file_lines (env : Env) (h : Host) (c : config) :
  isfile h (path_join h (DATA_DIR c) "accounts.txt") = true →
  ∃ accts kept,
    (_load_accounts_file env h c).1 = Started accts
    ∧ accts = strip env <$> kept
    ∧ kept = filter (λ l, strip env l ≠ "" ∧ String.prefix "#" l = false)
               (readlines h (path_join h (DATA_DIR c) "accounts.txt"))
    ∧ length accts = length kept
    ∧ kept `sublist_of` readlines h (path_join h (DATA_DIR c) "accounts.txt")
    ∧ (∀ l, l ∈ kept ↔ l ∈ readlines h (path_join h (DATA_DIR c) "accounts.txt")
                        ∧ strip env l ≠ "" ∧ String.prefix "#" l = false)
    ∧ (∀ a, a ∈ accts → a ≠ "").
Proof.
  intros Hfile. unfold _load_accounts_file. rewrite Hfile. cbn [negb fst].
  set (lines := readlines h _).
  exists (strip env <$> filter (λ l, account_line env l = true) lines),
         (filter (λ l, account_line env l = true) lines).
  assert (∀ l, account_line env l = true ↔ strip env l ≠ "" ∧ String.prefix "#" l = false)
    as Hline.
  { intros l. unfold account_line. rewrite andb_true_iff, bool_decide_eq_true.
    rewrite negb_true_iff. done. }
  split; [done|]. split; [done|].
  split; [by apply list_filter_iff|]. split; [by rewrite length_fmap|].
  split; [apply sublist_filter|]. split.
  - intros l. rewrite list_elem_of_filter, Hline. tauto.
  - intros a (l & -> & [Hl _]%list_elem_of_filter)%list_elem_of_fmap.
    by apply Hline in Hl as [? _].
Qed.

(** An instance of X13: the sample file gives A, B and the indented comment. *)
Lemma load_accounts_file_lines_witness :
  ∃ accts,
    (_load_accounts_file stripping_env (example_host (Some accounts_txt) accepted)
       (_load_config (example_host (Some accounts_txt) accepted))).1 = Started accts
    ∧ accts = ["A"; "B"; "# later"]
    ∧ ∀ a, a ∈ accts → a ≠ "".
Proof.
  destruct (load_accounts_file_lines stripping_env
              (example_host (Some accounts_txt) accepted)
              (_load_config (example_host (Some accounts_txt) accepted)) eq_refl)
    as (accts & kept & H1 & _ & _ & _ & _ & _ & H5).
  exists accts. split; [exact H1|]. split; [|exact H5].
  vm_compute in H1. by injection H1 as <-.
Defined.

(** ** The session *)

(** X14.  [_create_session] sends exactly one request, with the handle and the
    password of the environment, the empty string standing in for one that is
    not set.  It returns a token only when the answer has no error status and
    is a JSON object with "accessJwt".  A rate limit here is fatal like any
    other error status: there is no retry. *)
Theorem create_session_outcomes (h : Host) :
  (_create_session h (_load_config h)).2
  = [SevCreateSession (default "" (environ h !! "BLUESKY_HANDLE"))
       (default "" (environ h !! "BLUESKY_APP_PASSWORD"))]
  ∧ (∀ tok,
       (_create_session h (_load_config h)).1 = Started tok
       ↔ ∃ status_code,
           session_exchange h (default "" (environ h !! "BLUESKY_HANDLE"))
             (default "" (environ h !! "BLUESKY_APP_PASSWORD"))
           = Response status_code (SessionJson (Some tok))
           ∧ raise_for_status status_code = false)
  ∧ (∀ content,
       session_exchange h (default "" (environ h !! "BLUESKY_HANDLE"))
         (default "" (environ h !! "BLUESKY_APP_PASSWORD"))
       = Response 429 content →
       (_create_session h (_load_config h)).1 = Fatal (Uncaught (HTTPError 429))).
Proof.
  unfold _create_session, _load_config, getenv. cbn [BLUESKY_USER BLUESKY_PW].
  set (x := session_exchange h _ _).
  split; [|split].
  - destruct x as [|sc [[tok|]|]]; [done|..]; by destruct (raise_for_status sc).
  - intros tok. split.
    + destruct x as [|sc [[tok'|]|]]; [done|..];
        destruct (raise_for_status sc) eqn:Hsc; try done.
      intros [= ->]. by exists sc.
    + intros (sc & -> & ->). done.
  - by intros content ->.
Qed.

(** ** [__init__] *)

Lemma init_state env h accounts_arg debug w :
  (__init__ env h accounts_arg debug w).1.2
  = set_existing_uuids (get_existing_uuids (set_db (_ensure_table (db w)).1 w))
      (set_db (_ensure_table (db w)).1 w).
Proof.
  unfold __init__. destruct (_ensure_table (db w)) as [t evs_db]. cbn [fst].
  destruct (_create_session h _) as [[tok|e] evs_s]; [|done].
  destruct accounts_arg as [[|a l]|]; [| done |];
    by destruct (_load_accounts_file env h _) as [[accts|e] evs_a].
Qed.

Lemma init_table_exists env h accounts_arg debug w :
  is_Some (db (__init__ env h accounts_arg debug w).1.2).
Proof.
  rewrite init_state. unfold _ensure_table. by destruct (db w); cbn.
Qed.

(** X15.  Whatever becomes of startup, [__init__] leaves a state in which the
    table exists with the rows it had (none if it was missing), and in which
    [self.existing_uuids] is exactly the set of stored ids; nothing is
    requested from the feed.  So the run after startup never meets a
    missing table. *)
Theorem init_ensures_table (env : Env) (h : Host) (accounts_arg : option (list string))
    (debug : option bool) (w : State) :
  is_Some (db (__init__ env h accounts_arg debug w).1.2)
  ∧ default [] (db (__init__ env h accounts_arg debug w).1.2) = default [] (db w)
  ∧ existing_uuids (__init__ env h accounts_arg debug w).1.2
    = get_existing_uuids (__init__ env h accounts_arg debug w).1.2
  ∧ get_existing_uuids (__init__ env h accounts_arg debug w).1.2 = get_existing_uuids w
  ∧ trace (__init__ env h accounts_arg debug w).1.2 = trace w.
Proof.
  rewrite init_state. unfold _ensure_table, get_existing_uuids.
  destruct (db w) as [rows|] eqn:Hdb; cbn; rewrite ?Hdb; by repeat split.
Qed.

(** X16.  Startup goes in a fixed order: table, session, accounts.  The
    table is created (when missing) before the session is asked for, so it
    is there also when the session is refused; and the accounts file is
    looked at only after the session was granted: when the session fails,
    [__init__] raises that failure and no accounts file is opened or
    reported missing. *)
Theorem init_order (env : Env) (h : Host) (accounts_arg : option (list string))
    (debug : option bool) (w : State) :
  (∃ before,
     (__init__ env h accounts_arg debug w).2
     = before ++ (_create_session h (_load_config h)).2 ++ (_ensure_table (db w)).2)
  ∧ (db w = None → SevCreateTable ∈ (__init__ env h accounts_arg debug w).2)
  ∧ ∀ e, (_create_session h (_load_config h)).1 = Fatal e →
         (__init__ env h accounts_arg debug w).1.1 = Fatal e
         ∧ (__init__ env h accounts_arg debug w).2
           = (_create_session h (_load_config h)).2 ++ (_ensure_table (db w)).2
         ∧ is_Some (db (__init__ env h accounts_arg debug w).1.2).
Proof.
  assert (_create_session h
            match debug with
            | Some d => {| BASE_DIR := BASE_DIR (_load_config h);
                           DATA_DIR := DATA_DIR (_load_config h);
                           BLUESKY_USER := BLUESKY_USER (_load_config h);
                           BLUESKY_PW := BLUESKY_PW (_load_config h);
                           cfg_DEBUG := d |}
            | None => _load_config h
            end = _create_session h (_load_config h)) as Hsess
    by (by destruct debug).
  assert (∃ before,
            (__init__ env h accounts_arg debug w).2
            = before ++ (_create_session h (_load_config h)).2 ++ (_ensure_table (db w)).2
            ∧ ∀ e, (_create_session h (_load_config h)).1 = Fatal e →
                   (__init__ env h accounts_arg debug w).1.1 = Fatal e ∧ before = [])
    as (before & Hevs & Hfatal).
  { unfold __init__. rewrite Hsess.
    destruct (_ensure_table (db w)) as [t evs_db]. cbn [fst snd].
    destruct (_create_session h (_load_config h)) as [[tok|e] evs_s]; cbn [fst snd].
    - destruct accounts_arg as [[|a l]|].
      + destruct (_load_accounts_file env h _) as [[accts|e] evs_a];
          exists evs_a; (split; [done|]); by intros e' [=].
      + exists []. split; [done|]. by intros e' [=].
      + destruct (_load_accounts_file env h _) as [[accts|e] evs_a];
          exists evs_a; (split; [done|]); by intros e' [=].
    - exists []. split; [done|]. by intros e' [= ->]. }
  split; [by exists before|]. split.
  - intros Hdb. rewrite Hevs, Hdb. cbn. rewrite !elem_of_app. right. right.
    apply elem_of_cons. right. by left.
  - intros e He. destruct (Hfatal e He) as [Hres ->]. split; [done|]. split; [done|].
    apply init_table_exists.
Qed.

(** X17.  With the session granted, a non-empty list of accounts given to
    [__init__] is taken as it is and the accounts file is not looked at,
    whether it exists or not; an empty list counts as no list; and without a
    list, a missing accounts.txt is fatal (after the session request), an
    existing one supplies the accounts. *)
Theorem init_accounts_argument (env : Env) (h : Host) (debug : option bool)
    (w : State) (tok : string) :
  (_create_session h (_load_config h)).1 = Started tok →
  (∀ a l, ∃ job,
     (__init__ env h (Some (a :: l)) debug w).1.1 = Started job
     ∧ accounts job = a :: l
     ∧ token job = tok
     ∧ headers job = ("Authorization", "Bearer " +:+ tok)
     ∧ (__init__ env h (Some (a :: l)) debug w).2
       = (_create_session h (_load_config h)).2 ++ (_ensure_table (db w)).2)
  ∧ __init__ env h (Some []) debug w = __init__ env h None debug w
  ∧ (isfile h (path_join h (path_join h (base_dir h) "data") "accounts.txt") = false →
     (__init__ env h None debug w).1.1
     = Fatal (FileNotFoundError (path_join h (path_join h (base_dir h) "data") "accounts.txt"))
     ∧ (__init__ env h None debug w).2
       = SevLog ERROR (AccountsNotFound
                         (path_join h (path_join h (base_dir h) "data") "accounts.txt"))
         :: (_create_session h (_load_config h)).2 ++ (_ensure_table (db w)).2)
  ∧ (isfile h (path_join h (path_join h (base_dir h) "data") "accounts.txt") = true →
     ∃ job,
       (__init__ env h None debug w).1.1 = Started job
       ∧ accounts job
         = strip env <$> filter (λ l, account_line env l = true)
             (readlines h (path_join h (path_join h (base_dir h) "data") "accounts.txt"))).
Proof.
  intros Hs.
  assert (_create_session h
            match debug with
            | Some d => {| BASE_DIR := BASE_DIR (_load_config h);
                           DATA_DIR := DATA_DIR (_load_config h);
                           BLUESKY_USER := BLUESKY_USER (_load_config h);
                           BLUESKY_PW := BLUESKY_PW (_load_config h);
                           cfg_DEBUG := d |}
            | None => _load_config h
            end = _create_session h (_load_config h)) as Hsess
    by (by destruct debug).
  assert (∀ T (f : config → T),
            (∀ c d, f {| BASE_DIR := BASE_DIR c; DATA_DIR := DATA_DIR c;
                         BLUESKY_USER := BLUESKY_USER c; BLUESKY_PW := BLUESKY_PW c;
                         cfg_DEBUG := d |} = f c) →
            f match debug with
              | Some d => {| BASE_DIR := BASE_DIR (_load_config h);
                             DATA_DIR := DATA_DIR (_load_config h);
                             BLUESKY_USER := BLUESKY_USER (_load_config h);
                             BLUESKY_PW := BLUESKY_PW (_load_config h);
                             cfg_DEBUG := d |}
              | None => _load_config h
              end = f (_load_config h)) as Hcfg.
  { intros T f Hf. destruct debug as [d|]; [apply Hf|done]. }
  pose proof (Hcfg _ (_load_accounts_file env h) ltac:(done)) as Hload.
  unfold __init__. rewrite Hsess, Hload.
  destruct (_ensure_table (db w)) as [t evs_db]. cbn [fst snd].
  destruct (_create_session h (_load_config h)) as [[tok'|e] evs_s]; [|discriminate].
  cbn [fst] in Hs. injection Hs as ->. cbn [fst snd].
  split; [intros a l; eexists; by repeat split|]. split; [done|].
  unfold _load_accounts_file, _load_config. cbn [DATA_DIR BASE_DIR]. split.
  - intros ->. cbn [negb fst snd]. by split.
  - intros ->. cbn [negb fst snd]. eexists. by split.
Qed.

(** An instance of X17: a list is given and there is no accounts file. *)
Lemma init_accounts_argument_witness :
  ∃ job,
    (__init__ scenario_env (example_host None accepted) (Some ["A"; "B"]) None no_table).1.1
    = Started job
    ∧ accounts job = ["A"; "B"]
    ∧ (__init__ scenario_env (example_host None accepted) None None no_table).1.1
      = Fatal (FileNotFoundError "/srv/app/data/accounts.txt").
Proof.
  destruct (init_accounts_argument scenario_env (example_host None accepted) None no_table
              "jwt" eq_refl) as (Hgiven & _ & Hmissing & _).
  destruct (Hgiven "A" ["B"]) as (job & Hjob & Hacc & _).
  exists job. split; [exact Hjob|]. split; [exact Hacc|].
  exact (proj1 (Hmissing eq_refl)).
Defined.

(** ** Creating the table first *)

Lemma fetch_loop_set_db t fuel env actor limit :
  ∀ k w,
    fetch_loop fuel env actor limit k (set_db t w)
    = (λ p, (p.1, set_db t p.2)) <$> fetch_loop fuel env actor limit k w.
Proof.
  induction fuel as [|fuel IH]; intros k w; [done|].
  cbn [fetch_loop]. destruct (answer _) as [|sc c]; [done|].
  destruct (bool_decide (sc ≠ 429)); [done|].
  exact (IH (S k) (time_sleep 5 (logger WARNING RateLimited
                     (advance (rtt (feed_exchange env actor limit k))
                        (record_event (EvGetFeed actor limit) w))))).
Qed.

Lemma collect_accounts_set_db t fuel env accts :
  ∀ posts w,
    collect_accounts fuel env accts posts (set_db t w)
    = (λ p, (p.1, set_db t p.2)) <$> collect_accounts fuel env accts posts w.
Proof.
  induction accts as [|acct rest IH]; intros posts w; [done|].
  cbn [collect_accounts]. unfold _fetch_author_feed. rewrite fetch_loop_set_db.
  destruct (fetch_loop fuel env acct 10 0 w) as [[[j|e] w1]|]; cbn; [| |done].
  - assert (collect_account env acct j posts (set_db t w1)
            = ((collect_account env acct j posts w1).1,
               set_db t (collect_account env acct j posts w1).2)) as ->.
    { destruct j as [feed|]; cbn [collect_account]; [|done].
      change (existing_uuids (set_db t w1)) with (existing_uuids w1).
      by destruct (collect_feed env (existing_uuids w1) acct (default [] feed) posts)
        as [? [?|]]. }
    destruct (collect_account env acct j posts w1) as [p1 w2]. apply IH.
  - exact (IH posts (logger ERROR (ErrorFetching acct e) w1)).
Qed.

Lemma enrich_dataframe_set_db t env df w :
  _enrich_dataframe env df (set_db t w)
  = ((_enrich_dataframe env df w).1, set_db t (_enrich_dataframe env df w).2).
Proof.
  assert (∀ parse rows v,
            apply_fetch_metadata env parse rows (set_db t v)
            = ((apply_fetch_metadata env parse rows v).1,
               set_db t (apply_fetch_metadata env parse rows v).2)) as Happly.
  { intros parse rows. induction rows as [|x rows IH]; intros v; [done|].
    cbn [apply_fetch_metadata].
    assert (_fetch_metadata env (raw_external_url x) (set_db t v)
            = ((_fetch_metadata env (raw_external_url x) v).1,
               set_db t (_fetch_metadata env (raw_external_url x) v).2)) as ->.
    { unfold _fetch_metadata. by destruct (fetch_metadata_try env _). }
    destruct (_fetch_metadata env (raw_external_url x) v) as [meta v1]. cbn [fst snd].
    rewrite IH. by destruct (apply_fetch_metadata env parse rows v1). }
  destruct df as [|x df]; [done|].
  exact (Happly (to_datetime env (raw_timestamp <$> x :: df)) (x :: df)
           (record_event (EvToDatetime (raw_timestamp <$> x :: df)) w)).
Qed.

Lemma set_db_same t w : db w = t → set_db t w = w.
Proof. intros <-. by destruct w. Qed.

(** X18.  Creating the table first changes nothing in what a run does: from
    the state with the table ensured, a run gives the same result, the same
    trace and the same stored rows as from the state without that step; the
    only difference is that the table then exists, empty, also when nothing
    was appended. *)
Theorem run_after_ensure_table (fuel : nat) (env : Env) (accts : list string) (w : State) :
  run fuel env accts (ensured w)
  = (λ p, (p.1, ensured p.2)) <$> run fuel env accts w.
Proof.
  unfold ensured. destruct (db w) as [rows|] eqn:Hdb.
  - cbn [_ensure_table fst]. rewrite (set_db_same _ w Hdb).
    destruct (run fuel env accts w) as [[r w']|] eqn:Hrun; [|done]. cbn.
    assert (is_Some (db w')) as [rows' Hdb'].
    { apply run_trace in Hrun as (posts & wc & evs1 & _ & _ & _ & _ & _ & Hcase).
      destruct Hcase as [(_ & _ & _ & ->)|(_ & evs2 & l & m & _ & _ & Hres)];
        [by rewrite Hdb|].
      destruct Hres as [(_ & _ & ->)|(_ & _ & -> & _)]; [done|by rewrite Hdb]. }
    rewrite Hdb'. cbn [_ensure_table fst]. by rewrite (set_db_same _ w' Hdb').
  - cbn [_ensure_table fst]. unfold run, _collect_posts.
    assert (get_existing_uuids (set_db (Some []) w) = get_existing_uuids w) as ->
      by (unfold get_existing_uuids; by rewrite Hdb).
    change (set_existing_uuids (get_existing_uuids w) (set_db (Some []) w))
      with (set_db (Some []) (set_existing_uuids (get_existing_uuids w) w)).
    rewrite collect_accounts_set_db.
    destruct (collect_accounts fuel env accts [] _) as [[posts w1]|] eqn:Hc; [|done].
    cbn [fmap option_fmap option_map fst snd].
    apply collect_accounts_effect in Hc as ((_ & Hd1) & _). cbn in Hd1. rewrite Hdb in Hd1.
    destruct (drop_duplicates posts) as [|x df].
    { cbn. by rewrite Hd1. }
    change (existing_uuids (set_db (Some []) w1)) with (existing_uuids w1).
    set (new_df := not_isin (existing_uuids w1) (x :: df)).
    change (logger INFO (FoundNew (length new_df)) (set_db (Some []) w1))
      with (set_db (Some []) (logger INFO (FoundNew (length new_df)) w1)).
    rewrite enrich_dataframe_set_db.
    destruct (enrich_dataframe_spec env new_df (logger INFO (FoundNew (length new_df)) w1))
      as (_ & (_ & Hd3) & _).
    destruct (_enrich_dataframe env new_df _) as [rows w3]. cbn [fst snd] in *.
    cbn in Hd3. rewrite Hd1 in Hd3.
    destruct rows as [|row rows]; cbn; [by rewrite Hd3|].
    unfold append_dataframe. destruct (to_sql_fails env (row :: rows)); cbn; [by rewrite Hd3|].
    by rewrite Hd3.
Qed.

(** ** [main] *)

Lemma feed_requests_app evs1 evs2 :
  feed_requests (evs1 ++ evs2) = feed_requests evs1 ++ feed_requests evs2.
Proof. unfold feed_requests. apply omap_app. Qed.

Lemma enrich_dataframe_feed_requests env df w :
  feed_requests (trace (_enrich_dataframe env df w).2) = feed_requests (trace w).
Proof.
  assert (∀ parse rows v,
            feed_requests (trace (apply_fetch_metadata env parse rows v).2)
            = feed_requests (trace v)) as Happly.
  { intros parse rows v.
    destruct (apply_fetch_metadata_spec env parse rows v) as (_ & _ & ->).
    rewrite feed_requests_app.
    assert (feed_requests (reverse (EvGetPage <$> (raw_external_url <$> rows))) = []) as ->;
      [|done].
    rewrite <- fmap_reverse. by induction (reverse (raw_external_url <$> rows)). }
  destruct df as [|x df]; [done|].
  exact (Happly (to_datetime env (raw_timestamp <$> x :: df)) (x :: df)
           (record_event (EvToDatetime (raw_timestamp <$> x :: df)) w)).
Qed.

(** The feed requests of a run are those of its account loop. *)
Lemma run_feed_requests fuel env accts w r w' :
  run fuel env accts w = Some (r, w') →
  ∃ posts wc,
    collect_accounts fuel env accts []
      (set_existing_uuids (get_existing_uuids w) w) = Some (posts, wc)
    ∧ feed_requests (trace w') = feed_requests (trace wc).
Proof.
  unfold run, _collect_posts.
  destruct (collect_accounts fuel env accts [] _) as [[posts wc]|]; [|discriminate].
  intros H. exists posts, wc. split; [done|].
  destruct (drop_duplicates posts) as [|x df]; [by injection H as <- <-|].
  set (new_df := not_isin (existing_uuids wc) (x :: df)) in H.
  pose proof (enrich_dataframe_feed_requests env new_df
                (logger INFO (FoundNew (length new_df)) wc)) as Hreq.
  destruct (_enrich_dataframe env new_df _) as [[|row rows] w3]; cbn [snd] in Hreq.
  - injection H as <- <-. exact Hreq.
  - injection H as H. symmetry in H.
    apply append_dataframe_cases in H as (-> & _). exact Hreq.
Qed.

Lemma init_from_file env h w tok :
  (_create_session h (_load_config h)).1 = Started tok →
  isfile h (path_join h (path_join h (base_dir h) "data") "accounts.txt") = true →
  ∃ job,
    (__init__ env h None None w).1 = (Started job, (__init__ env h None None w).1.2)
    ∧ accounts job
      = strip env <$> filter (λ l, account_line env l = true)
          (readlines h (path_join h (path_join h (base_dir h) "data") "accounts.txt")).
Proof.
  intros Hs Hfile. unfold __init__.
  destruct (_ensure_table (db w)) as [t evs_db].
  destruct (_create_session h (_load_config h)) as [[tok'|e] evs_s]; [|discriminate].
  unfold _load_accounts_file, _load_config. cbn [DATA_DIR BASE_DIR].
  rewrite Hfile. cbn [negb fst snd]. by eexists.
Qed.

(** X19.  [main] end to end.  When the session is refused, or granted with
    no accounts.txt, [main] ends with the startup error and the loop is not
    started.  When the session is granted, the file exists and no feed
    answer is a rate limit, the first turn of the loop completes or ends
    with a storage error, and the feeds it requested are exactly the
    account lines of the file, once each and in file order; the table
    exists afterwards. *)
Theorem main_polls_the_file (fuel : nat) (env : Env) (h : Host) (w : State) :
  (∀ e turns, (_create_session h (_load_config h)).1 = Fatal e →
              (main turns fuel env h w).1 = Fatal e)
  ∧ (∀ tok turns,
       (_create_session h (_load_config h)).1 = Started tok →
       isfile h (path_join h (path_join h (base_dir h) "data") "accounts.txt") = false →
       (main turns fuel env h w).1
       = Fatal (FileNotFoundError
                  (path_join h (path_join h (base_dir h) "data") "accounts.txt")))
  ∧ (∀ tok,
       (_create_session h (_load_config h)).1 = Started tok →
       isfile h (path_join h (path_join h (base_dir h) "data") "accounts.txt") = true →
       (∀ l, l ∈ readlines h (path_join h (path_join h (base_dir h) "data") "accounts.txt") →
             is_429 (answer (feed_exchange env (strip env l) 10 0)) = false) →
       ∃ s,
         (main 1 (S fuel) env h w).1 = Started (Some s)
         ∧ feed_requests (trace (loop_final s))
           = reverse (strip env <$> filter (λ l, account_line env l = true)
                        (readlines h (path_join h (path_join h (base_dir h) "data")
                                        "accounts.txt")))
             ++ feed_requests (trace w)
         ∧ is_Some (db (loop_final s))).
Proof.
  split; [|split].
  - intros e turns He. unfold main, __init__.
    destruct (_ensure_table (db w)) as [t evs_db].
    by destruct (_create_session h (_load_config h)) as [[tok'|e'] evs_s];
      [discriminate|injection He as ->].
  - intros tok turns Hs Hfile. unfold main, __init__.
    destruct (_ensure_table (db w)) as [t evs_db].
    destruct (_create_session h (_load_config h)) as [[tok'|e'] evs_s]; [|discriminate].
    unfold _load_accounts_file, _load_config. cbn [DATA_DIR BASE_DIR].
    by rewrite Hfile.
  - intros tok Hs Hfile Hok.
    destruct (init_from_file env h w tok Hs Hfile) as (job & Hinit & Hacc).
    pose proof (init_state env h None None w) as Hst.
    pose proof (init_table_exists env h None None w) as Hex.
    unfold main. destruct (__init__ env h None None w) as [[res w1] evs].
    cbn [fst snd] in *. injection Hinit as ->. rewrite Hacc. clear Hacc job.
    set (accts := strip env <$> _).
    assert (trace w1 = trace w) as Htr by (by rewrite Hst).
    assert (∀ b, b ∈ accts → is_429 (answer (feed_exchange env b 10 0)) = false) as Hok'.
    { intros b (l & -> & [_ Hl]%list_elem_of_filter)%list_elem_of_fmap. by apply Hok. }
    set (v := logger INFO (StartingPerpetual 5) w1).
    destruct (collect_accounts_no_rate_limit fuel env accts Hok' []
                (set_existing_uuids (get_existing_uuids v) v))
      as (posts & wc & evs1 & Hc & Hem & Hreq & _).
    destruct (run_returns (S fuel) env accts v) as [[r w'] Hrun]; [by eexists|].
    pose proof (run_feed_requests _ _ _ _ _ _ Hrun) as (posts' & wc' & Hc' & Hfr).
    rewrite Hc in Hc'. injection Hc' as <- <-.
    assert (is_Some (db w')) as Hdb'.
    { apply run_trace in Hrun as (? & ? & ? & _ & _ & _ & _ & _ & Hcase).
      destruct Hcase as [(_ & _ & _ & ->)|(_ & evs2 & l & m & _ & _ & Hres)]; [done|].
      by destruct Hres as [(_ & _ & ->)|(_ & _ & -> & _)]. }
    assert (feed_requests (trace w') = reverse accts ++ feed_requests (trace w)) as Hfinal.
    { rewrite Hfr, Hem, feed_requests_app, Hreq. cbn. by rewrite Htr. }
    unfold run_forever. fold v. cbn [loop]. unfold iteration. rewrite Hrun.
    destruct r as [[]|e].
    + destruct (negb _); eexists; (split; [reflexivity|]); by split.
    + eexists. split; [reflexivity|]. by split.
Qed.

(** An instance of X19: the sample file, every account answered. *)
Lemma main_polls_the_file_witness :
  ∃ s,
    (main 1 1 stripping_env (example_host (Some accounts_txt) accepted) no_table).1
    = Started (Some s)
    ∧ feed_requests (trace (loop_final s)) = ["# later"; "B"; "A"]
    ∧ stored_ids (loop_final s) = ["p1"; "p2"; "p3"; "p4"].
Proof.
  destruct (proj2 (proj2 (main_polls_the_file 0 stripping_env
                            (example_host (Some accounts_txt) accepted) no_table))
              "jwt" eq_refl eq_refl) as (s & Hmain & Hreq & _).
  - intros l Hl. repeat (apply elem_of_cons in Hl as [->|Hl]; [reflexivity|]).
    by apply elem_of_nil in Hl.
  - exists s. split; [exact Hmain|]. split; [exact Hreq|].
    vm_compute in Hmain. by injection Hmain as <-.
Defined.

(** ** The log lines of a run *)

(** X20.  After the account loop a run does one of two things.  Either it
    logs "No posts collected." and stops.  Or it logs "Found n new posts",
    parses the timestamps, requests n pages, hands n rows to [to_sql] and logs
    "Inserted n" or the storage failure: the count it logs is the number of
    rows it appends.  The filter against the stored ids in [run] removes
    nothing, and the line "No new posts to insert." is never logged. *)
Theorem run_tail (fuel : nat) (env : Env) (accts : list string)
    (w : State) (r : result unit) (w' : State) :
  run fuel env accts w = Some (r, w') →
  ∃ posts wc,
    collect_accounts fuel env accts []
      (set_existing_uuids (get_existing_uuids w) w) = Some (posts, wc)
    ∧ not_isin (existing_uuids wc) (drop_duplicates posts) = drop_duplicates posts
    ∧ ((posts = [] ∧ trace w' = EvLog INFO NoPostsCollected :: trace wc)
       ∨ ∃ batch,
           batch ≠ []
           ∧ uuid <$> batch = raw_uuid <$> drop_duplicates posts
           ∧ trace w'
             = EvLog (if to_sql_fails env batch then ERROR else INFO)
                 (if to_sql_fails env batch then DbInsertFailed
                  else Inserted (length batch))
               :: EvToSql batch
               :: reverse (EvGetPage <$> (external_url <$> batch))
               ++ EvToDatetime (raw_timestamp <$> drop_duplicates posts)
               :: EvLog INFO (FoundNew (length batch)) :: trace wc).
Proof.
  unfold run, _collect_posts.
  destruct (collect_accounts fuel env accts [] _) as [[posts wc]|] eqn:Hc; [|discriminate].
  intros H. exists posts, wc. split; [done|].
  apply collect_accounts_effect in Hc as ((Hx & _) & _ & Hnew). cbn in Hx, Hnew.
  assert (not_isin (existing_uuids wc) (drop_duplicates posts) = drop_duplicates posts)
    as Hsame.
  { apply not_isin_all, Forall_forall. intros x Hx'.
    destruct (drop_duplicates_from_spec posts []) as (_ & Hsub & _).
    destruct (Hsub x Hx') as [_ Hin]. rewrite Forall_forall in Hnew.
    rewrite Hx. by apply Hnew. }
  split; [exact Hsame|].
  destruct (drop_duplicates posts) as [|x df] eqn:Hdd.
  - apply drop_duplicates_nil in Hdd. injection H as <- <-. by left.
  - right. rewrite Hsame in H. exists (enriched env (x :: df)).
    assert ((_enrich_dataframe env (x :: df)
               (logger INFO (FoundNew (length (x :: df))) wc)).1 = enriched env (x :: df)
            ∧ trace (_enrich_dataframe env (x :: df)
                       (logger INFO (FoundNew (length (x :: df))) wc)).2
              = reverse (EvGetPage <$> (raw_external_url <$> x :: df))
                ++ EvToDatetime (raw_timestamp <$> x :: df)
                :: EvLog INFO (FoundNew (length (x :: df))) :: trace wc) as [Hrows Htr].
    { destruct (enrich_dataframe_spec env (x :: df)
                  (logger INFO (FoundNew (length (x :: df))) wc)) as (Hrows & _).
      split; [exact Hrows|].
      change (_enrich_dataframe env (x :: df) ?v) with
        (apply_fetch_metadata env (to_datetime env (raw_timestamp <$> x :: df)) (x :: df)
           (record_event (EvToDatetime (raw_timestamp <$> x :: df)) v)).
      by destruct (apply_fetch_metadata_spec env
                     (to_datetime env (raw_timestamp <$> x :: df)) (x :: df)
                     (record_event (EvToDatetime (raw_timestamp <$> x :: df))
                        (logger INFO (FoundNew (length (x :: df))) wc))) as (_ & _ & ->). }
    destruct (_enrich_dataframe env (x :: df) _) as [rows w3]. cbn [fst snd] in *.
    subst rows.
    assert (external_url <$> enriched env (x :: df) = raw_external_url <$> x :: df) as Hurl.
    { unfold enriched. rewrite <- list_fmap_compose. reflexivity. }
    assert (length (enriched env (x :: df)) = length (x :: df)) as Hlen
      by (unfold enriched; by rewrite length_fmap).
    split; [by intros ?%enriched_nil|]. split; [apply enriched_uuid|].
    rewrite Hurl, Hlen.
    destruct (enriched env (x :: df)) as [|row rows] eqn:Hen;
      [by apply enriched_nil in Hen|].
    injection H as H. symmetry in H.
    apply append_dataframe_cases in H as (-> & _). by rewrite Htr, Hlen.
Qed.

(** An instance of X20: the reference scenario logs 4 and appends 4. *)
Lemma run_tail_witness :
  ∃ w' batch rest,
    run 1 scenario_env ["A"; "B"] fresh = Some (Return tt, w')
    ∧ trace w' = EvLog INFO (Inserted 4) :: EvToSql batch :: rest
    ∧ length batch = 4%nat
    ∧ EvLog INFO (FoundNew 4) ∈ rest.
Proof.
  destruct (run_tail 1 scenario_env ["A"; "B"] fresh (Return tt) _
              ltac:(vm_compute; reflexivity)) as (posts & wc & Hc & _ & Hcase).
  vm_compute in Hc. injection Hc as <- <-.
  eexists _, _, _. split; [vm_compute; reflexivity|]. split; [reflexivity|].
  split; [reflexivity|].
  do 5 (apply elem_of_cons; right). apply elem_of_cons. by left.
Defined.

(** An instance of X14: the session endpoint answers 429. *)
Lemma create_session_outcomes_witness :
  (_create_session (example_host None (Response 429 SessionNotJson))
     (_load_config (example_host None (Response 429 SessionNotJson)))).1
  = Fatal (Uncaught (HTTPError 429))
  ∧ (_create_session (example_host None (Response 429 SessionNotJson))
       (_load_config (example_host None (Response 429 SessionNotJson)))).2
    = [SevCreateSession "me.bsky.social" "secret"].
Proof.
  destruct (create_session_outcomes (example_host None (Response 429 SessionNotJson)))
    as (Hev & _ & Hlimit).
  split; [exact (Hlimit SessionNotJson eq_refl)|exact Hev].
Defined.

(** An instance of X16: no table, and the session is refused with 401. *)
Lemma init_order_witness :
  (__init__ scenario_env (example_host (Some accounts_txt) (Response 401 SessionNotJson))
     None None no_table).1.1 = Fatal (Uncaught (HTTPError 401))
  ∧ (__init__ scenario_env (example_host (Some accounts_txt) (Response 401 SessionNotJson))
       None None no_table).2
    = [SevCreateSession "me.bsky.social" "secret"; SevLog INFO CreatedTable; SevCreateTable]
  ∧ is_Some (db (__init__ scenario_env
                   (example_host (Some accounts_txt) (Response 401 SessionNotJson))
                   None None no_table).1.2).
Proof.
  destruct (init_order scenario_env
              (example_host (Some accounts_txt) (Response 401 SessionNotJson))
              None None no_table) as (_ & _ & Hfatal).
  exact (Hfatal (Uncaught (HTTPError 401)) eq_refl).
Defined.
